(** * node-mapnik: the VectorTile binding and the pixel visitors

    A shallow embedding of [src/mapnik_vector_tile.cpp] and
    [src/pixel_utils.hpp].  JavaScript values, N-API conversions and the
    protobuf messages of a tile are modelled structurally; functions of the
    mapnik and mapnik-vector-tile libraries that the binding calls
    (geometry predicates, the geometry decoder, the layer datasource, the
    GeoJSON writer, pixel access) are section variables. *)

From Stdlib Require Import ZArith List String Bool Lia.
Import ListNotations.
Local Open Scope Z_scope.
Set Warnings "-register-all".

(** ** Fixed-width integers *)

Module Int.

Definition int32_min : Z := - 2 ^ 31.
Definition int32_max : Z := 2 ^ 31 - 1.
Definition int64_min : Z := - 2 ^ 63.
Definition int64_max : Z := 2 ^ 63 - 1.

(** Two's-complement reduction to 32 bits, signed: the result of an [int]
      operation whose exact value is [n]. *)
Definition wrap32 (n : Z) : Z := (n + 2 ^ 31) mod 2 ^ 32 - 2 ^ 31.

(** Conversion to [std::uint32_t]. *)
Definition to_uint32 (n : Z) : Z := n mod 2 ^ 32.

(** Clamping into the [std::int64_t] range. *)
Definition saturate64 (n : Z) : Z := Z.max int64_min (Z.min int64_max n).

End Int.

(** ** Protobuf messages of a tile

    The tile buffer is read with protozero, field by field.  A message is
    the sequence of its fields in wire order; fields the binding skips keep
    only their tag. *)

Inductive feature_field : Type :=
| F_ID (id : Z)
| F_TAGS (tags : list Z)
| F_TYPE (geom_type : Z)
| F_GEOMETRY (cmds : list Z)
| F_OTHER (tag : Z).

Definition feature_msg : Type := list feature_field.

Inductive layer_field : Type :=
| L_NAME (name : string)
| L_FEATURES (msg : feature_msg)
| L_VERSION (version : Z)
| L_OTHER (tag : Z).

Definition layer_msg : Type := list layer_field.

Inductive tile_field : Type :=
| T_LAYERS (msg : layer_msg)
| T_OTHER (tag : Z).

Definition tile_buffer : Type := list tile_field.

(** ** [mapnik::vector_tile_impl::merc_tile] *)

Record merc_tile : Type := mk_merc_tile {
  x_ : Z;            (* std::uint64_t *)
  y_ : Z;            (* std::uint64_t *)
  z_ : Z;            (* std::uint64_t *)
  tile_size_ : Z;    (* std::uint32_t *)
  buffer_size_ : Z;  (* std::int32_t *)
  buffer_ : tile_buffer
}.

(** [merc_tile(x, y, z, tile_size, buffer_size)]: a tile with no data. *)
Definition merc_tile_new (x y z tile_size buffer_size : Z) : merc_tile :=
  mk_merc_tile x y z tile_size buffer_size [].

Definition set_x (t : merc_tile) (v : Z) : merc_tile :=
  mk_merc_tile v (y_ t) (z_ t) (tile_size_ t) (buffer_size_ t) (buffer_ t).
Definition set_y (t : merc_tile) (v : Z) : merc_tile :=
  mk_merc_tile (x_ t) v (z_ t) (tile_size_ t) (buffer_size_ t) (buffer_ t).
Definition set_z (t : merc_tile) (v : Z) : merc_tile :=
  mk_merc_tile (x_ t) (y_ t) v (tile_size_ t) (buffer_size_ t) (buffer_ t).
Definition set_tile_size_ (t : merc_tile) (v : Z) : merc_tile :=
  mk_merc_tile (x_ t) (y_ t) (z_ t) v (buffer_size_ t) (buffer_ t).
Definition set_buffer_size_ (t : merc_tile) (v : Z) : merc_tile :=
  mk_merc_tile (x_ t) (y_ t) (z_ t) (tile_size_ t) v (buffer_ t).

(** ** JavaScript values and N-API conversions

    A Number is represented by its integer part (0 when it is not finite):
    [Int32Value] and [Int64Value] read nothing else of it. *)

Inductive js_value : Type :=
| JsUndefined
| JsNull
| JsBoolean (b : bool)
| JsNumber (n : Z)
| JsString (s : string)
| JsObject (props : list (string * js_value))
| JsArray (elems : list js_value)
| JsFunction
| JsExternal (ptr : merc_tile)
| JsVectorTile (tile : merc_tile).

Inductive js_error : Type :=
| Error (message : string)
| TypeError (message : string).

(** The outcome of a binding call: a value, or a pending JavaScript
    exception. *)
Inductive completion (A : Type) : Type :=
| Normal (a : A)
| Throw (e : js_error).
Arguments Normal {A} a.
Arguments Throw {A} e.

Definition bind {A B : Type} (m : completion A) (k : A -> completion B)
  : completion B :=
  match m with
  | Normal a => k a
  | Throw e => Throw e
  end.

Notation "x <- m ;; k" := (bind m (fun x => k))
  (at level 61, m at next level, right associativity).

Module Napi.

Definition IsNumber (v : js_value) : bool :=
    match v with JsNumber _ => true | _ => false end.

Definition IsObject (v : js_value) : bool :=
    match v with
    | JsObject _ | JsArray _ | JsFunction | JsVectorTile _ => true
    | _ => false
    end.

Definition IsExternal (v : js_value) : bool :=
    match v with JsExternal _ => true | _ => false end.

(** [Number::Int32Value]: ECMAScript ToInt32, modulo 2^32. *)
Definition Int32Value (n : Z) : Z := Int.wrap32 n.

(** [Number::Int64Value]: values outside [std::int64_t] saturate. *)
Definition Int64Value (n : Z) : Z := Int.saturate64 n.

Definition props (v : js_value) : list (string * js_value) :=
    match v with JsObject p => p | _ => [] end.

Definition Has (o : list (string * js_value)) (key : string) : bool :=
    existsb (fun p => String.eqb (fst p) key) o.

Fixpoint Get (o : list (string * js_value)) (key : string) : js_value :=
    match o with
    | [] => JsUndefined
    | (k, v) :: rest => if String.eqb k key then v else Get rest key
    end.

End Napi.
Import Napi.

(** ** The VectorTile class *)

Section VectorTile.

Local Open Scope string_scope.
Local Open Scope Z_scope.

(** [std::int64_t max_at_zoom = pow(2,z)]: the power is exact in a double,
    and converts exactly while it fits 63 bits.  For larger [z] the
    conversion of the double is outside what C++ defines; the value the
    platform produces is [pow2_unrepresentable z], some [std::int64_t]. *)
Variable pow2_unrepresentable : Z -> Z.

Definition max_at_zoom (z : Z) : Z :=
  if z <=? 62 then 2 ^ z else Int.saturate64 (pow2_unrepresentable z).

Definition arg (info : list js_value) (i : nat) : js_value :=
  nth i info JsUndefined.

Definition Length (info : list js_value) : Z := Z.of_nat (List.length info).

(** The options block of the constructor (source lines 188-225): the
    [tile_size] and [buffer_size] the tile will be built with. *)
Definition VectorTile_options (info : list js_value) : completion (Z * Z) :=
  if 3 <? Length info then
    if negb (IsObject (arg info 3)) then
      Throw (TypeError "optional fourth argument must be an options object")
    else
      let options := props (arg info 3) in
      tile_size <-
        (if Has options "tile_size" then
           match Get options "tile_size" with
           | JsNumber n =>
               let tile_size_tmp := Int32Value n in
               if tile_size_tmp <=? 0 then
                 Throw (TypeError
                          "optional arg 'tile_size' must be greater then zero")
               else Normal (Int.to_uint32 tile_size_tmp)
           | _ => Throw (TypeError "optional arg 'tile_size' must be a number")
           end
         else Normal 4096) ;;
      buffer_size <-
        (if Has options "buffer_size" then
           match Get options "buffer_size" with
           | JsNumber n => Normal (Int32Value n)
           | _ =>
               Throw (TypeError "optional arg 'buffer_size' must be a number")
           end
         else Normal 128) ;;
      Normal (tile_size, buffer_size)
  else Normal (4096, 128).

(** [VectorTile::VectorTile]: the tile the new object holds, or the
    exception thrown, in which case [tile_] was never assigned. *)
Definition VectorTile_new (info : list js_value) : completion merc_tile :=
  match info with
  | [JsExternal ext] => Normal ext
  | _ =>
    if Length info <? 3 then Throw (Error "please provide a z, x, y")
    else
      match arg info 0, arg info 1, arg info 2 with
      | JsNumber nz, JsNumber nx, JsNumber ny =>
          let z := Int64Value nz in
          let x := Int64Value nx in
          let y := Int64Value ny in
          if (z <? 0) || (x <? 0) || (y <? 0) then
            Throw (TypeError
              "required parameters (z, x, and y) must be greater then or equal to zero")
          else
            let max_at_zoom := max_at_zoom z in
            if x >=? max_at_zoom then
              Throw (TypeError
                "required parameter x is out of range of possible values based on z value")
            else if y >=? max_at_zoom then
              Throw (TypeError
                "required parameter y is out of range of possible values based on z value")
            else
              opts <- VectorTile_options info ;;
              let '(tile_size, buffer_size) := opts in
              (* static_cast<double>(tile_size) + (2 * buffer_size) <= 0:
                 the product is an int, the sum a double *)
              if tile_size + Int.wrap32 (2 * buffer_size) <=? 0 then
                Throw (Error "too large of a negative buffer for tilesize")
              else Normal (merc_tile_new x y z tile_size buffer_size)
      | _, _, _ =>
          Throw (TypeError
                   "required parameters (z, x, and y) must be a integers")
      end
  end.

(** *** Property setters

    A setter returns the tile after the call and the exception it left
    pending, if any. *)

Definition set_tile_x (tile_ : merc_tile) (value : js_value)
  : merc_tile * option js_error :=
  match value with
  | JsNumber n =>
      let val := Int32Value n in
      if val <? 0 then
        (tile_,
         Some (Error "tile x coordinate must be greater then or equal to zero"))
      else (set_x tile_ val, None)
  | _ => (tile_, Some (Error "Must provide a number"))
  end.

Definition set_tile_y (tile_ : merc_tile) (value : js_value)
  : merc_tile * option js_error :=
  match value with
  | JsNumber n =>
      let val := Int32Value n in
      if val <? 0 then
        (tile_,
         Some (Error "tile y coordinate must be greater then or equal to zero"))
      else (set_y tile_ val, None)
  | _ => (tile_, Some (Error "Must provide a number"))
  end.

Definition set_tile_z (tile_ : merc_tile) (value : js_value)
  : merc_tile * option js_error :=
  match value with
  | JsNumber n =>
      let val := Int32Value n in
      if val <? 0 then
        (tile_,
         Some (Error "tile z coordinate must be greater then or equal to zero"))
      else (set_z tile_ val, None)
  | _ => (tile_, Some (Error "Must provide a number"))
  end.

Definition set_tile_size (tile_ : merc_tile) (value : js_value)
  : merc_tile * option js_error :=
  match value with
  | JsNumber n =>
      let val := Int32Value n in
      if val <=? 0 then
        (tile_, Some (Error "tile size must be greater then zero"))
      else (set_tile_size_ tile_ (Int.to_uint32 val), None)
  | _ => (tile_, Some (Error "Must provide a number"))
  end.

Definition set_buffer_size (tile_ : merc_tile) (value : js_value)
  : merc_tile * option js_error :=
  match value with
  | JsNumber n =>
      let val := Int32Value n in
      if Int.wrap32 (Int.wrap32 (tile_size_ tile_) + Int.wrap32 (2 * val)) <=? 0
      then (tile_, Some (Error "too large of a negative buffer for tilesize"))
      else (set_buffer_size_ tile_ val, None)
  | _ => (tile_, Some (Error "Must provide a number"))
  end.

(** Assignments to the accessor properties registered in
    [VectorTile::Initialize]. *)
Inductive assignment : Type :=
| Assign_x (value : js_value)
| Assign_y (value : js_value)
| Assign_z (value : js_value)
| Assign_tileSize (value : js_value)
| Assign_bufferSize (value : js_value).

Definition assign (tile_ : merc_tile) (a : assignment)
  : merc_tile * option js_error :=
  match a with
  | Assign_x v => set_tile_x tile_ v
  | Assign_y v => set_tile_y tile_ v
  | Assign_z v => set_tile_z tile_ v
  | Assign_tileSize v => set_tile_size tile_ v
  | Assign_bufferSize v => set_buffer_size tile_ v
  end.

(** The tile after a script of assignments, each exception being caught by
    the script. *)
Definition run_assignments (tile_ : merc_tile) (script : list assignment)
  : merc_tile :=
  fold_left (fun t a => fst (assign t a)) script tile_.

(** *** Methods whose body is commented out in the source *)

(** [VectorTile::compositeSync] (source lines 308-313): returns
    [env.Undefined()] at once. *)
Definition compositeSync (tile_ : merc_tile) (info : list js_value)
  : completion js_value * merc_tile :=
  (Normal JsUndefined, tile_).

(** [VectorTile::composite] (source lines 728-731). *)
Definition composite (tile_ : merc_tile) (info : list js_value)
  : completion js_value * merc_tile :=
  (Normal JsUndefined, tile_).

(** [VectorTile::layer] (source lines 1187-1192). *)
Definition layer (tile_ : merc_tile) (info : list js_value)
  : completion js_value * merc_tile :=
  (Normal JsUndefined, tile_).

End VectorTile.

(** ** Geometries and features ([mapnik::geometry], [mapnik::feature_impl]) *)

Section Geometry.

Variable coord : Type.

Record point : Type := mk_point { px : coord; py : coord }.

Definition line_string : Type := list point.
Definition linear_ring : Type := list point.
Definition polygon : Type := list linear_ring.
Definition multi_point : Type := list point.
Definition multi_line_string : Type := list line_string.
Definition multi_polygon : Type := list polygon.

Inductive geometry : Type :=
| geometry_empty
| geom_point (g : point)
| geom_line_string (g : line_string)
| geom_polygon (g : polygon)
| geom_multi_point (g : multi_point)
| geom_multi_line_string (g : multi_line_string)
| geom_multi_polygon (g : multi_polygon)
| geom_collection (gs : list geometry).

End Geometry.

Arguments mk_point {coord} px py.
Arguments geometry_empty {coord}.
Arguments geom_point {coord} g.
Arguments geom_line_string {coord} g.
Arguments geom_polygon {coord} g.
Arguments geom_multi_point {coord} g.
Arguments geom_multi_line_string {coord} g.
Arguments geom_multi_polygon {coord} g.
Arguments geom_collection {coord} gs.

Record feature_impl (coord value : Type) : Type := mk_feature {
  context : list string;
  id : Z;                         (* mapnik::value_integer *)
  get_data : list value;
  get_geometry : geometry coord
}.
Arguments mk_feature {coord value} context id get_data get_geometry.
Arguments context {coord value} f.
Arguments id {coord value} f.
Arguments get_data {coord value} f.
Arguments get_geometry {coord value} f.

(** [mapnik::feature_factory::create(ctx, fid)]. *)
Definition feature_factory_create {coord value : Type}
  (ctx : list string) (fid : Z) : feature_impl coord value :=
  mk_feature ctx fid [] geometry_empty.

Definition set_geometry {coord value : Type}
  (f : feature_impl coord value) (g : geometry coord)
  : feature_impl coord value :=
  mk_feature (context f) (id f) (get_data f) g.

Definition set_data {coord value : Type}
  (f : feature_impl coord value) (d : list value) : feature_impl coord value :=
  mk_feature (context f) (id f) d (get_geometry f).

(** The functions of mapnik and mapnik-vector-tile that the checker calls.
    [is_valid_*] return the verdict and the message left in the out
    parameter; [to_geojson] is [None] when the writer fails;
    [decode_geometry geoms type version] stands for
    [decode_geometry<double>(geoms, type, version, 0.0, 0.0, 1.0, 1.0)];
    [ds_features] is [tile_datasource_pbf::features] on the whole-plane
    query, [None] when the feature set is not valid, and otherwise the
    features that [next()] yields, in order. *)
Record mapnik_api (coord value : Type) : Type := mk_mapnik_api {
  is_simple : geometry coord -> bool;
  is_valid_point : point coord -> bool * string;
  is_valid_multi_point : multi_point coord -> bool * string;
  is_valid_line_string : line_string coord -> bool * string;
  is_valid_multi_line_string : multi_line_string coord -> bool * string;
  is_valid_polygon : polygon coord -> bool * string;
  is_valid_multi_polygon : multi_polygon coord -> bool * string;
  to_geojson : feature_impl coord value -> option string;
  decode_geometry : list Z -> Z -> Z -> geometry coord;
  reproject_copy : geometry coord -> geometry coord;
  ds_get_name : layer_msg -> string;
  ds_features :
    layer_msg -> Z -> Z -> Z -> option (list (feature_impl coord value))
}.
Arguments is_simple {coord value} m g.
Arguments is_valid_point {coord value} m g.
Arguments is_valid_multi_point {coord value} m g.
Arguments is_valid_line_string {coord value} m g.
Arguments is_valid_multi_line_string {coord value} m g.
Arguments is_valid_polygon {coord value} m g.
Arguments is_valid_multi_polygon {coord value} m g.
Arguments to_geojson {coord value} m f.
Arguments decode_geometry {coord value} m geoms geom_type version.
Arguments reproject_copy {coord value} m g.
Arguments ds_get_name {coord value} m layer.
Arguments ds_features {coord value} m layer x y z.

Record not_simple_feature : Type := mk_not_simple_feature {
  ns_layer : string;
  ns_feature_id : Z
}.

Record not_valid_feature : Type := mk_not_valid_feature {
  message : string;
  layer_name_of : string;
  feature_id : Z;
  geojson : string
}.

Definition dquote : string := String (Ascii.ascii_of_nat 34) EmptyString.

(** The literal [{"type":"FeatureCollection","features":[]. *)
Definition feature_collection_open : string :=
  ("{" ++ dquote ++ "type" ++ dquote ++ ":" ++ dquote ++ "FeatureCollection"
   ++ dquote ++ "," ++ dquote ++ "features" ++ dquote ++ ":[")%string.

(** ** The simplicity and validity checks *)

Section Checker.

Local Open Scope string_scope.
Local Open Scope list_scope.
Local Open Scope Z_scope.

Context {coord value : Type}.
Variable M : mapnik_api coord value.

(** *** Simplicity *)

(** The [while ((feature = fs->next()))] loop of [layer_not_simple]. *)
Fixpoint not_simple_loop (name : string) (fs : list (feature_impl coord value))
  (errors : list not_simple_feature) : list not_simple_feature :=
  match fs with
  | [] => errors
  | feature :: rest =>
      let errors :=
        if negb (is_simple M (get_geometry feature))
        then errors ++ [mk_not_simple_feature name (id feature)]
        else errors in
      not_simple_loop name rest errors
  end.

Definition layer_not_simple (layer_msg : layer_msg) (x y z : Z)
  (errors : list not_simple_feature) : list not_simple_feature :=
  match ds_features M layer_msg x y z with
  | Some fs => not_simple_loop (ds_get_name M layer_msg) fs errors
  | None => errors
  end.

(** [while (tile_msg.next(Tile_Encoding::LAYERS))] over a tile buffer. *)
Fixpoint not_simple_layers (buf : tile_buffer) (x y z : Z)
  (errors : list not_simple_feature) : list not_simple_feature :=
  match buf with
  | [] => errors
  | T_LAYERS layer_msg :: rest =>
      not_simple_layers rest x y z (layer_not_simple layer_msg x y z errors)
  | T_OTHER _ :: rest => not_simple_layers rest x y z errors
  end.

Definition vector_tile_not_simple (tile : merc_tile)
  (errors : list not_simple_feature) : list not_simple_feature :=
  not_simple_layers (buffer_ tile) (x_ tile) (y_ tile) (z_ tile) errors.

Definition make_not_simple_array (errors : list not_simple_feature)
  : js_value :=
  JsArray
    (map (fun error =>
            JsObject [("layer"%string, JsString (ns_layer error));
                      ("featureId"%string, JsNumber (ns_feature_id error))])
         errors).

(** No function called inside the [try] block is modelled as throwing, so
    the [catch] branch has no counterpart here. *)
Definition reportGeometrySimplicitySync (tile_ : merc_tile)
  (info : list js_value) : completion js_value :=
  let errors := vector_tile_not_simple tile_ [] in
  Normal (make_not_simple_array errors).

(** *** Validity *)

(** The block every case of [visitor_geom_valid] runs for a geometry [g]
    found invalid: a copy of the feature carrying [g] is written as GeoJSON
    and one record is appended.  The [std::runtime_error] of a failing
    writer reaches JavaScript as a [Napi::Error] with the same text. *)
Definition emplace_invalid (errors : list not_valid_feature)
  (feature : feature_impl coord value) (layer_name : string)
  (message : string) (g : geometry coord)
  : completion (list not_valid_feature) :=
  let feature_new := feature_factory_create (context feature) (id feature) in
  let result := feature_collection_open in
  let feature_new := set_data feature_new (get_data feature) in
  let feature_new := set_geometry feature_new g in
  match to_geojson M feature_new with
  | None => Throw (Error "Failed to generate GeoJSON geometry")
  | Some feature_str =>
      let result := (result ++ feature_str ++ "]}")%string in
      Normal (errors ++
              [mk_not_valid_feature message layer_name (id feature) result])
  end.

(** The cases for a single geometry test it twice, as the source does. *)
Definition check_whole {G : Type} (is_valid : G -> bool * string)
  (inj : G -> geometry coord) (errors : list not_valid_feature)
  (feature : feature_impl coord value) (layer_name : string) (geom : G)
  : completion (list not_valid_feature) :=
  let '(ok, message) := is_valid geom in
  if negb ok then
    let '(ok, message) := is_valid geom in
    if negb ok then
      emplace_invalid errors feature layer_name message (inj geom)
    else Normal errors
  else Normal errors.

(** The non-split branch of the two multi cases: one test. *)
Definition check_multi {G : Type} (is_valid : G -> bool * string)
  (inj : G -> geometry coord) (errors : list not_valid_feature)
  (feature : feature_impl coord value) (layer_name : string) (geom : G)
  : completion (list not_valid_feature) :=
  let '(ok, message) := is_valid geom in
  if negb ok then emplace_invalid errors feature layer_name message (inj geom)
  else Normal errors.

(** The split branch: [for (auto const& part : geom)]. *)
Fixpoint check_parts {P : Type} (is_valid : P -> bool * string)
  (inj : P -> geometry coord) (errors : list not_valid_feature)
  (feature : feature_impl coord value) (layer_name : string)
  (parts : list P) : completion (list not_valid_feature) :=
  match parts with
  | [] => Normal errors
  | part :: rest =>
      let '(ok, message) := is_valid part in
      errors <-
        (if negb ok then
           emplace_invalid errors feature layer_name message (inj part)
         else Normal errors) ;;
      check_parts is_valid inj errors feature layer_name rest
  end.

(** [visitor_geom_valid], applied with [mapnik::util::apply_visitor]. *)
Fixpoint visitor_geom_valid (errors : list not_valid_feature)
  (feature : feature_impl coord value) (layer_name : string)
  (split_multi_features : bool) (geom : geometry coord) {struct geom}
  : completion (list not_valid_feature) :=
  match geom with
  | geometry_empty => Normal errors
  | geom_point g =>
      check_whole (is_valid_point M) geom_point errors feature layer_name g
  | geom_multi_point g =>
      check_whole (is_valid_multi_point M) geom_multi_point
                  errors feature layer_name g
  | geom_line_string g =>
      check_whole (is_valid_line_string M) geom_line_string
                  errors feature layer_name g
  | geom_multi_line_string g =>
      if split_multi_features then
        check_parts (is_valid_line_string M) geom_line_string
                    errors feature layer_name g
      else
        check_multi (is_valid_multi_line_string M) geom_multi_line_string
                    errors feature layer_name g
  | geom_polygon g =>
      check_whole (is_valid_polygon M) geom_polygon errors feature layer_name g
  | geom_multi_polygon g =>
      if split_multi_features then
        check_parts (is_valid_polygon M) geom_polygon
                    errors feature layer_name g
      else
        check_multi (is_valid_multi_polygon M) geom_multi_polygon
                    errors feature layer_name g
  | geom_collection gs =>
      (fix each (errors : list not_valid_feature) (gs : list (geometry coord))
         : completion (list not_valid_feature) :=
         match gs with
         | [] => Normal errors
         | g :: rest =>
             match visitor_geom_valid errors feature layer_name
                                      split_multi_features g with
             | Normal errors => each errors rest
             | Throw e => Throw e
             end
         end) errors gs
  end.

(** The locals the first loop of the default branch of [layer_not_valid]
    fills in. *)
Record layer_scan : Type := mk_layer_scan {
  layer_features : list feature_msg;
  version : Z;
  layer_name : string
}.

Fixpoint scan_layer (layer_msg : layer_msg) (st : layer_scan) : layer_scan :=
  match layer_msg with
  | [] => st
  | L_NAME s :: rest =>
      scan_layer rest (mk_layer_scan (layer_features st) (version st) s)
  | L_FEATURES m :: rest =>
      scan_layer rest
        (mk_layer_scan (layer_features st ++ [m]) (version st) (layer_name st))
  | L_VERSION v :: rest =>
      scan_layer rest (mk_layer_scan (layer_features st) v (layer_name st))
  | L_OTHER _ :: rest => scan_layer rest st
  end.

(** The locals of the loop over one feature message. *)
Record feature_scan : Type := mk_feature_scan {
  geom_itr : list Z;
  has_geom : bool;
  has_geom_type : bool;
  geom_type_enum : Z;
  scanned_feature_id : Z       (* the local [feature_id] *)
}.

Fixpoint scan_feature (feature_msg : feature_msg) (st : feature_scan)
  : feature_scan :=
  match feature_msg with
  | [] => st
  | F_ID n :: rest =>
      scan_feature rest
        (mk_feature_scan (geom_itr st) (has_geom st) (has_geom_type st)
                         (geom_type_enum st) n)
  | F_TYPE e :: rest =>
      scan_feature rest
        (mk_feature_scan (geom_itr st) (has_geom st) true e
                         (scanned_feature_id st))
  | F_GEOMETRY g :: rest =>
      scan_feature rest
        (mk_feature_scan g true (has_geom_type st) (geom_type_enum st)
                         (scanned_feature_id st))
  | F_TAGS _ :: rest | F_OTHER _ :: rest => scan_feature rest st
  end.

Definition feature_scan_init : feature_scan := mk_feature_scan [] false false 0 0.

(** The body of [for (auto feature_msg : layer_features)]. *)
Definition check_feature_msg (errors : list not_valid_feature)
  (layer_name : string) (version : Z) (split_multi_features : bool)
  (feature_msg : feature_msg) : completion (list not_valid_feature) :=
  let st := scan_feature feature_msg feature_scan_init in
  if has_geom st && has_geom_type st then
    let ctx : list string := [] in
    let feature : feature_impl coord value := feature_factory_create ctx 1 in
    let feature :=
      set_geometry feature
        (decode_geometry M (geom_itr st) (geom_type_enum st) version) in
    visitor_geom_valid errors feature layer_name split_multi_features
                       (get_geometry feature)
  else Normal errors.

Fixpoint check_feature_msgs (errors : list not_valid_feature)
  (layer_name : string) (version : Z) (split_multi_features : bool)
  (msgs : list feature_msg) : completion (list not_valid_feature) :=
  match msgs with
  | [] => Normal errors
  | feature_msg :: rest =>
      errors <- check_feature_msg errors layer_name version
                                  split_multi_features feature_msg ;;
      check_feature_msgs errors layer_name version split_multi_features rest
  end.

(** The loop over the datasource's features in the [web_merc || lat_lon]
    branch. *)
Fixpoint check_ds_features (errors : list not_valid_feature)
  (name : string) (split_multi_features lat_lon : bool)
  (fs : list (feature_impl coord value))
  : completion (list not_valid_feature) :=
  match fs with
  | [] => Normal errors
  | feature :: rest =>
      errors <-
        (if lat_lon then
           visitor_geom_valid errors feature name split_multi_features
                              (reproject_copy M (get_geometry feature))
         else
           visitor_geom_valid errors feature name split_multi_features
                              (get_geometry feature)) ;;
      check_ds_features errors name split_multi_features lat_lon rest
  end.

Definition layer_not_valid (layer_msg : layer_msg) (x y z : Z)
  (errors : list not_valid_feature)
  (split_multi_features lat_lon web_merc : bool)
  : completion (list not_valid_feature) :=
  if web_merc || lat_lon then
    match ds_features M layer_msg x y z with
    | Some fs =>
        check_ds_features errors (ds_get_name M layer_msg)
                          split_multi_features lat_lon fs
    | None => Normal errors
    end
  else
    let st := scan_layer layer_msg (mk_layer_scan [] 1 "") in
    check_feature_msgs errors (layer_name st) (version st)
                       split_multi_features (layer_features st).

Fixpoint not_valid_layers (buf : tile_buffer) (x y z : Z)
  (errors : list not_valid_feature)
  (split_multi_features lat_lon web_merc : bool)
  : completion (list not_valid_feature) :=
  match buf with
  | [] => Normal errors
  | T_LAYERS layer_msg :: rest =>
      errors <- layer_not_valid layer_msg x y z errors
                                split_multi_features lat_lon web_merc ;;
      not_valid_layers rest x y z errors split_multi_features lat_lon web_merc
  | T_OTHER _ :: rest =>
      not_valid_layers rest x y z errors split_multi_features lat_lon web_merc
  end.

Definition vector_tile_not_valid (tile : merc_tile)
  (errors : list not_valid_feature)
  (split_multi_features lat_lon web_merc : bool)
  : completion (list not_valid_feature) :=
  not_valid_layers (buffer_ tile) (x_ tile) (y_ tile) (z_ tile) errors
                   split_multi_features lat_lon web_merc.

Definition make_not_valid_array (errors : list not_valid_feature) : js_value :=
  JsArray
    (map (fun error =>
            JsObject [("layer"%string, JsString (layer_name_of error));
                      ("message"%string, JsString (message error));
                      ("featureId"%string, JsNumber (feature_id error));
                      ("geojson"%string, JsString (geojson error))])
         errors).

(** One boolean option of [reportGeometryValiditySync]. *)
Definition bool_option (options : list (string * js_value)) (key : string)
  (what : string) (default : bool) : completion bool :=
  if Has options key then
    match Get options key with
    | JsBoolean b => Normal b
    | _ => Throw (Error what)
    end
  else Normal default.

Definition reportGeometryValiditySync (tile_ : merc_tile)
  (info : list js_value) : completion js_value :=
  flags <-
    (if 1 <=? Length info then
       if negb (IsObject (arg info 0)) then
         Throw (Error "The first argument must be an object")
       else
         let options := props (arg info 0) in
         split_multi_features <-
           bool_option options "split_multi_features"
             "option 'split_multi_features' must be a boolean" false ;;
         lat_lon <-
           bool_option options "lat_lon"
             "option 'lat_lon' must be a boolean" false ;;
         web_merc <-
           bool_option options "web_merc"
             "option 'web_merc' must be a boolean" false ;;
         Normal (split_multi_features, lat_lon, web_merc)
     else Normal (false, false, false)) ;;
  let '(split_multi_features, lat_lon, web_merc) := flags in
  errors <- vector_tile_not_valid tile_ [] split_multi_features
                                  lat_lon web_merc ;;
  Normal (make_not_valid_array errors).

End Checker.

(** ** Pixel visitors ([pixel_utils.hpp]) *)

Section PixelUtils.

(** [image_data] stands for the typed alternatives of [mapnik::image_any]
    (rgba8, gray8, ... gray64f); [get_pixel] and [set_pixel] are mapnik's,
    the first throwing when the coordinates are out of range.  A pixel is
    read and written through a Number. *)
Variable image_data : Type.
Variable get_pixel : image_data -> Z -> Z -> completion Z.
Variable set_pixel : image_data -> Z -> Z -> Z -> image_data.

Inductive image_any : Type :=
| image_null
| image_typed (data : image_data).

Definition visitor_get_pixel (x_ y_ : Z) (image : image_any)
  : completion js_value :=
  match image with
  | image_null => Normal JsUndefined
  | image_typed data =>
      val <- get_pixel data x_ y_ ;;
      Normal (JsNumber val)
  end.

Definition visitor_set_pixel (num_ : Z) (x_ y_ : Z) (image : image_any)
  : image_any :=
  match image with
  | image_null => image_null
  | image_typed image => image_typed (set_pixel image x_ y_ num_)
  end.

End PixelUtils.

Arguments image_null {image_data}.
Arguments image_typed {image_data} data.
Arguments visitor_get_pixel {image_data} get_pixel x_ y_ image.
Arguments visitor_set_pixel {image_data} set_pixel num_ x_ y_ image.

(** ** Observations on a tile buffer *)

Definition name_of_layer (l : layer_msg) : string :=
  layer_name (scan_layer l (mk_layer_scan [] 1 "")).

Definition features_of_layer (l : layer_msg) : list feature_msg :=
  layer_features (scan_layer l (mk_layer_scan [] 1 "")).

(** The layer messages of a buffer, in order. *)
Fixpoint layers (buf : tile_buffer) : list layer_msg :=
  match buf with
  | [] => []
  | T_LAYERS l :: rest => l :: layers rest
  | T_OTHER _ :: rest => layers rest
  end.

(** Number of features in the layers called [name]. *)
Definition feature_count (name : string) (buf : tile_buffer) : nat :=
  list_sum
    (map (fun l => List.length (features_of_layer l))
         (filter (fun l => String.eqb (name_of_layer l) name) (layers buf))).

Definition has_layer (name : string) (buf : tile_buffer) : bool :=
  existsb (fun l => String.eqb (name_of_layer l) name) (layers buf).

(** ** A small instance of the library interface

    Integer coordinates, string attributes and simplified predicates, to
    run the checker on concrete tiles. *)

Module Demo.

Local Open Scope string_scope.
Local Open Scope list_scope.
Local Open Scope Z_scope.

Definition point_eqb (p q : point Z) : bool :=
  (px Z p =? px Z q) && (py Z p =? py Z q).

Fixpoint distinct_points (l : list (point Z)) : bool :=
  match l with
  | [] => true
  | p :: rest => negb (existsb (point_eqb p) rest) && distinct_points rest
  end.

Definition verdict (ok : bool) (why : string) : bool * string :=
  if ok then (true, "Geometry is valid") else (false, why).

Definition line_ok (l : line_string Z) : bool := (2 <=? List.length l)%nat.
Definition ring_ok (r : linear_ring Z) : bool := (4 <=? List.length r)%nat.
Definition polygon_ok (p : polygon Z) : bool := forallb ring_ok p.

Fixpoint pairs (cmds : list Z) : list (point Z) :=
  match cmds with
  | a :: b :: rest => mk_point a b :: pairs rest
  | _ => []
  end.

Definition decode (geoms : list Z) (geom_type version : Z) : geometry Z :=
  if geom_type =? 1 then geom_multi_point (pairs geoms)
  else if geom_type =? 2 then geom_line_string (pairs geoms)
  else if geom_type =? 3 then geom_polygon [pairs geoms]
  else geometry_empty.

Definition feature_of (version : Z) (m : feature_msg)
  : list (feature_impl Z string) :=
  let st := scan_feature m feature_scan_init in
  if has_geom st && has_geom_type st then
    [mk_feature [] (scanned_feature_id st) []
                (decode (geom_itr st) (geom_type_enum st) version)]
  else [].

Definition api : mapnik_api Z string :=
  mk_mapnik_api Z string
    (fun g => match g with
              | geom_line_string l => distinct_points l
              | _ => true
              end)
    (fun _ => (true, "Geometry is valid"))
    (fun _ => (true, "Geometry is valid"))
    (fun l => verdict (line_ok l) "Geometry has too few points")
    (fun m => verdict (forallb line_ok m) "Geometry has too few points")
    (fun p => verdict (polygon_ok p) "Geometry has too few points")
    (fun m => verdict (forallb polygon_ok m) "Geometry has too few points")
    (fun f => Some "{}")
    decode
    (fun g => g)
    name_of_layer
    (fun l _ _ _ =>
       Some (flat_map (feature_of (version (scan_layer l (mk_layer_scan [] 1 ""))))
                      (features_of_layer l))).

(** The same instance with a GeoJSON writer that always fails. *)
Definition api_writer_fails : mapnik_api Z string :=
  mk_mapnik_api Z string
    (is_simple api) (is_valid_point api) (is_valid_multi_point api)
    (is_valid_line_string api) (is_valid_multi_line_string api)
    (is_valid_polygon api) (is_valid_multi_polygon api)
    (fun f => None)
    (decode_geometry api) (reproject_copy api) (ds_get_name api)
    (ds_features api).

(** Always in range, as on a platform whose conversion saturates. *)
Definition pow2_saturating (z : Z) : Z := 2 ^ z.

(** The "integer indefinite" value of x86-64's [cvttsd2si]. *)
Definition pow2_indefinite (z : Z) : Z := Int.int64_min.


(** Layer [parcels] with one polygon of three points, feature id 7. *)
Definition parcels : layer_msg :=
  [L_NAME "parcels"; L_VERSION 2;
   L_FEATURES [F_ID 7; F_TYPE 3; F_GEOMETRY [0; 0; 4; 4; 0; 0]]].

(** Layer [points] with one feature. *)
Definition points (fid px py : Z) : layer_msg :=
  [L_NAME "points"; L_VERSION 2;
   L_FEATURES [F_ID fid; F_TYPE 1; F_GEOMETRY [px; py]]].

Definition tile_with (x y z : Z) (buf : tile_buffer) : merc_tile :=
  mk_merc_tile x y z 4096 128 buf.

End Demo.

(** ** The rest of the VectorTile class *)

Section VectorTileRest.

Local Open Scope string_scope.
Local Open Scope list_scope.
Local Open Scope Z_scope.

(** [Napi::Number::New(env, v)]: the integer [v] becomes a double, exactly
    while [|v| <= 2^53]; beyond, it is rounded, to [round_to_double v]. *)
Variable round_to_double : Z -> Z.

Definition Number_New (v : Z) : js_value :=
  JsNumber (if Z.abs v <=? 2 ^ 53 then v else round_to_double v).

(** *** Property getters (source lines 3548-3571) *)

Definition get_tile_x (tile_ : merc_tile) : js_value := Number_New (x_ tile_).
Definition get_tile_y (tile_ : merc_tile) : js_value := Number_New (y_ tile_).
Definition get_tile_z (tile_ : merc_tile) : js_value := Number_New (z_ tile_).
Definition get_tile_size (tile_ : merc_tile) : js_value :=
  Number_New (tile_size_ tile_).
Definition get_buffer_size (tile_ : merc_tile) : js_value :=
  Number_New (buffer_size_ tile_).

(** *** The other methods whose body is commented out

    Each returns [env.Undefined()] before a comment that holds its former
    body. *)

(** [VectorTile::addImageSync] (source lines 1353-1357). *)
Definition addImageSync (tile_ : merc_tile) (info : list js_value)
  : completion js_value * merc_tile :=
  (Normal JsUndefined, tile_).

(** [VectorTile::addImage] (source lines 1507-1510). *)
Definition addImage (tile_ : merc_tile) (info : list js_value)
  : completion js_value * merc_tile :=
  (Normal JsUndefined, tile_).

(** [VectorTile::addImageBufferSync] (source lines 1681-1685). *)
Definition addImageBufferSync (tile_ : merc_tile) (info : list js_value)
  : completion js_value * merc_tile :=
  (Normal JsUndefined, tile_).

(** [VectorTile::addImageBuffer] (source lines 1766-1770). *)
Definition addImageBuffer (tile_ : merc_tile) (info : list js_value)
  : completion js_value * merc_tile :=
  (Normal JsUndefined, tile_).

(** [VectorTile::render] (source lines 2010-2013). *)
Definition render (tile_ : merc_tile) (info : list js_value)
  : completion js_value * merc_tile :=
  (Normal JsUndefined, tile_).

(** [VectorTile::clearSync] (source lines 2562-2570): the call of
    [d->clear()] is in a comment after the [return]. *)
Definition clearSync (tile_ : merc_tile) (info : list js_value)
  : completion js_value * merc_tile :=
  (Normal JsUndefined, tile_).

(** [VectorTile::clear] (source lines 2598-2602). *)
Definition clear (tile_ : merc_tile) (info : list js_value)
  : completion js_value * merc_tile :=
  (Normal JsUndefined, tile_).

(** [VectorTile::reportGeometrySimplicity] (source lines 3340-3367): the
    asynchronous variant queues nothing and never calls the callback. *)
Definition reportGeometrySimplicity (tile_ : merc_tile) (info : list js_value)
  : completion js_value * merc_tile :=
  (Normal JsUndefined, tile_).

(** [VectorTile::reportGeometryValidity] (source lines 3428-3432). *)
Definition reportGeometryValidity (tile_ : merc_tile) (info : list js_value)
  : completion js_value * merc_tile :=
  (Normal JsUndefined, tile_).

(** *** Calls on a tile object

    The methods and accessors of the class whose code is modelled here.
    The synchronous reports read the tile and leave it alone. *)

Context {coord value : Type}.
Variable M : mapnik_api coord value.

Inductive invocation : Type :=
| Call_compositeSync (info : list js_value)
| Call_composite (info : list js_value)
| Call_layer (info : list js_value)
| Call_addImageSync (info : list js_value)
| Call_addImage (info : list js_value)
| Call_addImageBufferSync (info : list js_value)
| Call_addImageBuffer (info : list js_value)
| Call_render (info : list js_value)
| Call_clearSync (info : list js_value)
| Call_clear (info : list js_value)
| Call_reportGeometrySimplicity (info : list js_value)
| Call_reportGeometryValidity (info : list js_value)
| Call_reportGeometrySimplicitySync (info : list js_value)
| Call_reportGeometryValiditySync (info : list js_value)
| Read_x
| Read_y
| Read_z
| Read_tileSize
| Read_bufferSize
| Write (a : assignment).

(** The completion of one invocation and the tile after it.  An
    assignment completes with the assigned value, or with the exception of
    its setter. *)
Definition invoke (tile_ : merc_tile) (i : invocation)
  : completion js_value * merc_tile :=
  match i with
  | Call_compositeSync info => compositeSync tile_ info
  | Call_composite info => composite tile_ info
  | Call_layer info => layer tile_ info
  | Call_addImageSync info => addImageSync tile_ info
  | Call_addImage info => addImage tile_ info
  | Call_addImageBufferSync info => addImageBufferSync tile_ info
  | Call_addImageBuffer info => addImageBuffer tile_ info
  | Call_render info => render tile_ info
  | Call_clearSync info => clearSync tile_ info
  | Call_clear info => clear tile_ info
  | Call_reportGeometrySimplicity info => reportGeometrySimplicity tile_ info
  | Call_reportGeometryValidity info => reportGeometryValidity tile_ info
  | Call_reportGeometrySimplicitySync info =>
      (reportGeometrySimplicitySync M tile_ info, tile_)
  | Call_reportGeometryValiditySync info =>
      (reportGeometryValiditySync M tile_ info, tile_)
  | Read_x => (Normal (get_tile_x tile_), tile_)
  | Read_y => (Normal (get_tile_y tile_), tile_)
  | Read_z => (Normal (get_tile_z tile_), tile_)
  | Read_tileSize => (Normal (get_tile_size tile_), tile_)
  | Read_bufferSize => (Normal (get_buffer_size tile_), tile_)
  | Write a =>
      let '(tile', exn) := assign tile_ a in
      (match exn with
       | Some e => Throw e
       | None =>
           Normal (match a with
                   | Assign_x v | Assign_y v | Assign_z v
                   | Assign_tileSize v | Assign_bufferSize v => v
                   end)
       end, tile')
  end.

(** The tile after a script of invocations, every exception being caught
    by the script. *)
Definition run (tile_ : merc_tile) (script : list invocation) : merc_tile :=
  fold_left (fun t i => snd (invoke t i)) script tile_.

End VectorTileRest.

(** *** [VectorTile::Initialize] (source lines 69-119) *)

Local Open Scope string_scope.
Local Open Scope list_scope.
Local Open Scope Z_scope.




(** ** Statements about tiles *)

Local Open Scope string_scope.
Local Open Scope list_scope.
Local Open Scope Z_scope.

(** The three errors the constructor raises for a bad address. *)
Definition invalid_address (e : js_error) : Prop :=
  e = TypeError
        "required parameters (z, x, and y) must be greater then or equal to zero"
  \/ e = TypeError
        "required parameter x is out of range of possible values based on z value"
  \/ e = TypeError
        "required parameter y is out of range of possible values based on z value".

(** [tile_size + 2*buffer_size] is positive. *)
Definition size_invariant (t : merc_tile) : Prop :=
  0 < tile_size_ t + 2 * buffer_size_ t.

Definition x_in_range (t : merc_tile) : Prop := 0 <= x_ t < 2 ^ z_ t.
Definition y_in_range (t : merc_tile) : Prop := 0 <= y_ t < 2 ^ z_ t.

(** What an options object asks for: the [tile_size] the constructor reads
    from it ([4096] when the key is absent) and the [buffer_size] ([128]
    when absent). *)
Definition asks_tile_size (options : list (string * js_value)) (ts : Z)
  : Prop :=
  (Has options "tile_size" = false /\ ts = 4096)
  \/ (Has options "tile_size" = true
      /\ exists n, Get options "tile_size" = JsNumber n /\ ts = Int32Value n).

Definition asks_buffer_size (options : list (string * js_value)) (bs : Z)
  : Prop :=
  (Has options "buffer_size" = false /\ bs = 128)
  \/ (Has options "buffer_size" = true
      /\ exists n, Get options "buffer_size" = JsNumber n /\ bs = Int32Value n).

(** What every tile built by the constructor from numbers satisfies, and
    every assignment keeps: a non-negative address and a tile size that is
    a positive [int]. *)
Definition tile_fields_ok (t : merc_tile) : Prop :=
  0 <= x_ t /\ 0 <= y_ t /\ 0 <= z_ t
  /\ 0 < tile_size_ t <= Int.int32_max
  /\ Int.int32_min <= buffer_size_ t <= Int.int32_max.

(** The argument list is the single External of the copying path of the
    constructor. *)
Definition is_external_call (info : list js_value) : Prop :=
  exists ext, info = [JsExternal ext].

(** ** Statements about the checks *)

Section CheckerStatements.

Context {coord value : Type}.
Variable M : mapnik_api coord value.

(** The entries the simplicity check owes for a layer: one per feature of
    the layer whose geometry is not simple, in the order of the features. *)
Definition not_simple_of_layer (l : layer_msg) (x y z : Z)
  : list not_simple_feature :=
  match ds_features M l x y z with
  | Some fs =>
      map (fun f => mk_not_simple_feature (ds_get_name M l) (id f))
          (filter (fun f => negb (is_simple M (get_geometry f))) fs)
  | None => []
  end.


(** The parts of a multi geometry that fail their validity test. *)
Definition invalid_parts {P : Type} (is_valid : P -> bool * string)
  (parts : list P) : list P :=
  filter (fun p => negb (fst (is_valid p))) parts.

(** The GeoJSON text written for [feature] carrying the geometry [g]
    instead of its own. *)
Definition geojson_for (feature : feature_impl coord value)
  (g : geometry coord) : string :=
  match to_geojson M (mk_feature (context feature) (id feature)
                                 (get_data feature) g) with
  | Some feature_str => (feature_collection_open ++ feature_str ++ "]}")%string
  | None => EmptyString
  end.

(** The record reported for a geometry [g] (a part, or a whole) of
    [feature] that failed [is_valid]. *)
Definition record_for {G : Type} (is_valid : G -> bool * string)
  (inj : G -> geometry coord) (feature : feature_impl coord value)
  (layer_name : string) (g : G) : not_valid_feature :=
  mk_not_valid_feature (snd (is_valid g)) layer_name (id feature)
                       (geojson_for feature (inj g)).

(** A record names this feature and this layer. *)
Definition reports (feature : feature_impl coord value) (layer_name : string)
  (e : not_valid_feature) : Prop :=
  feature_id e = id feature /\ layer_name_of e = layer_name.

(** A run that returns has appended to [errors] records that all name
    [feature] and [name]. *)
Definition appends_reports (feature : feature_impl coord value)
  (name : string) (errors : list not_valid_feature)
  (r : completion (list not_valid_feature)) : Prop :=
  forall errors', r = Normal errors' ->
    exists new, errors' = errors ++ new /\ Forall (reports feature name) new.

End CheckerStatements.

(** *** Statements used beyond the claims *)

(** A boolean option of [reportGeometryValiditySync] is well typed: absent,
    or a Boolean. *)
Definition flag_ok (options : list (string * js_value)) (key : string)
  : Prop :=
  Has options key = false \/ exists b, Get options key = JsBoolean b.

(** Its value: [false] when absent. *)
Definition flag_value (options : list (string * js_value)) (key : string)
  : bool :=
  if Has options key then
    match Get options key with JsBoolean b => b | _ => false end
  else false.

(** The tile [t] holding the data [buf]. *)
Definition with_buffer (t : merc_tile) (buf : tile_buffer) : merc_tile :=
  mk_merc_tile (x_ t) (y_ t) (z_ t) (tile_size_ t) (buffer_size_ t) buf.


(** A step of the check only appends: started on [errors], it does what it
    does started on the empty list, with [errors] in front. *)
Definition accumulates
  (f : list not_valid_feature -> completion (list not_valid_feature)) : Prop :=
  forall errors, f errors = (new <- f [] ;; Normal (errors ++ new)).

(** A feature message lacks a geometry field, or lacks a type field. *)
Definition lacks_geometry_or_type (m : feature_msg) : Prop :=
  (forall g, ~ In (F_GEOMETRY g) m) \/ (forall e, ~ In (F_TYPE e) m).

Section GeometryStatements.

Context {coord value : Type}.
Variable M : mapnik_api coord value.

(** The geometry holds a multi-line-string or a multi-polygon, itself or
    inside a collection. *)
Fixpoint splittable (g : geometry coord) : bool :=
  match g with
  | geom_multi_line_string _ | geom_multi_polygon _ => true
  | geom_collection gs =>
      (fix any (gs : list (geometry coord)) : bool :=
         match gs with
         | [] => false
         | g :: rest => splittable g || any rest
         end) gs
  | _ => false
  end.

(** Every test the visitor makes on the geometry succeeds. *)
Fixpoint passes (split_multi_features : bool) (g : geometry coord) : bool :=
  match g with
  | geometry_empty => true
  | geom_point g => fst (is_valid_point M g)
  | geom_multi_point g => fst (is_valid_multi_point M g)
  | geom_line_string g => fst (is_valid_line_string M g)
  | geom_polygon g => fst (is_valid_polygon M g)
  | geom_multi_line_string g =>
      if split_multi_features
      then forallb (fun p => fst (is_valid_line_string M p)) g
      else fst (is_valid_multi_line_string M g)
  | geom_multi_polygon g =>
      if split_multi_features
      then forallb (fun p => fst (is_valid_polygon M p)) g
      else fst (is_valid_multi_polygon M g)
  | geom_collection gs =>
      (fix all (gs : list (geometry coord)) : bool :=
         match gs with
         | [] => true
         | g :: rest => passes split_multi_features g && all rest
         end) gs
  end.

End GeometryStatements.

(** The id a feature message encodes: its last [id] field, 0 without one. *)
Definition encoded_id (m : feature_msg) : Z :=
  scanned_feature_id (scan_feature m feature_scan_init).

(** ** Facts on fixed-width integers *)

Import Int.

Lemma wrap32_range (n : Z) : int32_min <= wrap32 n <= int32_max.
Proof.
  unfold wrap32, int32_min, int32_max.
  pose proof (Z.mod_pos_bound (n + 2 ^ 31) (2 ^ 32) ltac:(lia)). lia.
Qed.

Lemma wrap32_small (n : Z) : int32_min <= n <= int32_max -> wrap32 n = n.
Proof.
  unfold wrap32, int32_min, int32_max. intros H.
  rewrite Z.mod_small by lia. lia.
Qed.

Lemma to_uint32_small (n : Z) : 0 <= n < 2 ^ 32 -> to_uint32 n = n.
Proof. intros H. unfold to_uint32. now rewrite Z.mod_small. Qed.

Lemma saturate64_range (n : Z) : int64_min <= saturate64 n <= int64_max.
Proof. unfold saturate64, int64_min, int64_max. lia. Qed.

Lemma saturate64_small (n : Z) :
  int64_min <= n <= int64_max -> saturate64 n = n.
Proof. unfold saturate64. lia. Qed.

Lemma saturate64_neg (n : Z) : saturate64 n < 0 <-> n < 0.
Proof. unfold saturate64, int64_min, int64_max. lia. Qed.


Lemma pow2_le_62 (z : Z) : 0 <= z <= 62 -> 0 < 2 ^ z <= 2 ^ 62.
Proof.
  intros H. split.
  - apply Z.pow_pos_nonneg; lia.
  - apply Z.pow_le_mono_r; lia.
Qed.

(** ** The constructor *)

Lemma max_at_zoom_exact (P : Z -> Z) (z : Z) :
  z <= 62 -> max_at_zoom P z = 2 ^ z.
Proof.
  intros H. unfold max_at_zoom.
  destruct (Z.leb_spec z 62); [reflexivity | lia].
Qed.

Lemma max_at_zoom_range (P : Z -> Z) (z : Z) :
  0 <= z -> int64_min <= max_at_zoom P z <= int64_max.
Proof.
  intros H. unfold max_at_zoom.
  destruct (Z.leb_spec z 62).
  - pose proof (pow2_le_62 z ltac:(lia)).
    unfold int64_min, int64_max. lia.
  - apply saturate64_range.
Qed.

(** The head of the constructor on three Number arguments: the address
    checks, then the default options. *)
Lemma VectorTile_new_three (P : Z -> Z) (nz nx ny : Z) :
  VectorTile_new P [JsNumber nz; JsNumber nx; JsNumber ny] =
  let z := Int64Value nz in
  let x := Int64Value nx in
  let y := Int64Value ny in
  if (z <? 0) || (x <? 0) || (y <? 0) then
    Throw (TypeError
      "required parameters (z, x, and y) must be greater then or equal to zero")
  else if x >=? max_at_zoom P z then
    Throw (TypeError
      "required parameter x is out of range of possible values based on z value")
  else if y >=? max_at_zoom P z then
    Throw (TypeError
      "required parameter y is out of range of possible values based on z value")
  else Normal (merc_tile_new x y z 4096 128).
Proof.
  unfold VectorTile_new, VectorTile_options, Length, arg.
  cbn [List.length nth Z.of_nat].
  change (Z.of_nat 3 <? 3) with false. change (3 <? Z.of_nat 3) with false.
  cbv zeta. cbn [bind].
  destruct ((Int64Value nz <? 0) || (Int64Value nx <? 0) || (Int64Value ny <? 0));
    [reflexivity|].
  destruct (Int64Value nx >=? max_at_zoom P (Int64Value nz)); [reflexivity|].
  destruct (Int64Value ny >=? max_at_zoom P (Int64Value nz)); reflexivity.
Qed.

(** A valid address at a zoom that fits is built with the default sizes. *)
Lemma VectorTile_new_valid_address (P : Z -> Z) (z x y : Z) :
  0 <= z <= 62 -> 0 <= x < 2 ^ z -> 0 <= y < 2 ^ z ->
  VectorTile_new P [JsNumber z; JsNumber x; JsNumber y]
  = Normal (merc_tile_new x y z 4096 128).
Proof.
  intros Hz Hx Hy. rewrite VectorTile_new_three. cbv zeta. unfold Int64Value.
  pose proof (pow2_le_62 z Hz) as Hp.
  rewrite !saturate64_small by (unfold int64_min, int64_max; lia).
  rewrite max_at_zoom_exact by lia.
  destruct (Z.ltb_spec z 0); [lia|].
  destruct (Z.ltb_spec x 0); [lia|].
  destruct (Z.ltb_spec y 0); [lia|]. cbn [orb].
  destruct (Z.geb_spec x (2 ^ z)); [lia|].
  destruct (Z.geb_spec y (2 ^ z)); [lia|]. reflexivity.
Qed.

(** C2, as the code has it: for a zoom that fits ([z <= 62], so that
    [pow(2,z)] is an [int64_t]), a negative [z], [x] or [y], or an [x] or
    [y] at or above [2^z], makes the constructor throw one of its three
    address errors, no tile being created; every address with
    [0 <= x, y < 2^z] yields the tile at that address with the default
    sizes. *)
Theorem VectorTile_new_checks_address (P : Z -> Z) (z x y : Z) :
  z <= 62 ->
  (z < 0 \/ x < 0 \/ y < 0 \/ 2 ^ z <= x \/ 2 ^ z <= y ->
   exists e,
     VectorTile_new P [JsNumber z; JsNumber x; JsNumber y] = Throw e
     /\ invalid_address e)
  /\ (0 <= z -> 0 <= x < 2 ^ z -> 0 <= y < 2 ^ z ->
      VectorTile_new P [JsNumber z; JsNumber x; JsNumber y]
      = Normal (merc_tile_new x y z 4096 128)).
Proof.
  intros Hz. rewrite VectorTile_new_three. cbv zeta. unfold Int64Value.
  split.
  - intros Hbad.
    destruct (Z.ltb_spec (saturate64 z) 0) as [Hz0|Hz0]; cbn [orb].
    { eexists; split; [reflexivity | left; reflexivity]. }
    destruct (Z.ltb_spec (saturate64 x) 0) as [Hx0|Hx0]; cbn [orb].
    { eexists; split; [reflexivity | left; reflexivity]. }
    destruct (Z.ltb_spec (saturate64 y) 0) as [Hy0|Hy0]; cbn [orb].
    { eexists; split; [reflexivity | left; reflexivity]. }
    pose proof (proj1 (saturate64_neg z)) as Nz.
    pose proof (proj1 (saturate64_neg x)) as Nx.
    pose proof (proj1 (saturate64_neg y)) as Ny.
    assert (Hz' : 0 <= z <= 62) by (unfold saturate64, int64_min, int64_max in *; lia).
    rewrite (saturate64_small z)
      by (unfold int64_min, int64_max; lia).
    rewrite max_at_zoom_exact by lia.
    pose proof (pow2_le_62 z Hz') as Hp.
    destruct (Z.geb_spec (saturate64 x) (2 ^ z)) as [Hx|Hx].
    { eexists; split; [reflexivity | right; left; reflexivity]. }
    destruct (Z.geb_spec (saturate64 y) (2 ^ z)) as [Hy|Hy].
    { eexists; split; [reflexivity | right; right; reflexivity]. }
    exfalso. unfold saturate64, int64_min, int64_max in *. lia.
  - intros Hz0 Hx Hy.
    pose proof (VectorTile_new_valid_address P z x y ltac:(lia) Hx Hy) as E.
    rewrite VectorTile_new_three in E. exact E.
Qed.

(** At zoom 64 the bound [pow(2,64)] has no [int64_t] value; whatever the
    conversion yields, [x = 2^63] saturates to [INT64_MAX] and is found out
    of range, although [2^63 < 2^64]. *)
Lemma VectorTile_new_zoom_64 (P : Z -> Z) :
  VectorTile_new P [JsNumber 64; JsNumber (2 ^ 63); JsNumber 0]
  = Throw (TypeError
      "required parameter x is out of range of possible values based on z value").
Proof.
  rewrite VectorTile_new_three. cbv zeta.
  change (Int64Value 64) with 64. change (Int64Value 0) with 0.
  change (Int64Value (2 ^ 63)) with int64_max.
  change ((64 <? 0) || (int64_max <? 0) || (0 <? 0)) with false. cbv iota.
  pose proof (max_at_zoom_range P 64 ltac:(lia)) as H.
  destruct (Z.geb_spec int64_max (max_at_zoom P 64)); [reflexivity | lia].
Qed.

(** At zoom 63 on x86-64: the conversion of [pow(2,63)] yields
    [INT64_MIN], and [x = 0] is found out of range. *)
Lemma VectorTile_new_zoom_63_indefinite :
  VectorTile_new Demo.pow2_indefinite [JsNumber 63; JsNumber 0; JsNumber 0]
  = Throw (TypeError
      "required parameter x is out of range of possible values based on z value").
Proof. rewrite VectorTile_new_three. reflexivity. Qed.

(** C2, as stated, fails for a zoom above 62.  The address [(64, 2^63, 0)]
    satisfies [0 <= x, y < 2^z] and is rejected, on a platform whose
    conversion saturates and on one that returns the indefinite value; on
    the latter the address [(63, 0, 0)] is rejected too. *)
Lemma VectorTile_new_rejects_valid_address_at_zoom_64 :
  (0 <= 2 ^ 63 < 2 ^ 64 /\ 0 <= 0 < 2 ^ 64 /\ 0 <= 0 < 2 ^ 63)
  /\ VectorTile_new Demo.pow2_saturating
       [JsNumber 64; JsNumber (2 ^ 63); JsNumber 0]
     = Throw (TypeError
         "required parameter x is out of range of possible values based on z value")
  /\ VectorTile_new Demo.pow2_indefinite
       [JsNumber 64; JsNumber (2 ^ 63); JsNumber 0]
     = Throw (TypeError
         "required parameter x is out of range of possible values based on z value")
  /\ VectorTile_new Demo.pow2_indefinite
       [JsNumber 63; JsNumber 0; JsNumber 0]
     = Throw (TypeError
         "required parameter x is out of range of possible values based on z value").
Proof.
  split; [lia|]. split; [apply VectorTile_new_zoom_64|].
  split; [apply VectorTile_new_zoom_64 | apply VectorTile_new_zoom_63_indefinite].
Qed.

Lemma VectorTile_new_checks_address_witness :
  VectorTile_new Demo.pow2_saturating [JsNumber 1; JsNumber 1; JsNumber 0]
  = Normal (merc_tile_new 1 0 1 4096 128)
  /\ exists e,
       VectorTile_new Demo.pow2_saturating [JsNumber 0; JsNumber 1; JsNumber 0]
       = Throw e /\ invalid_address e.
Proof.
  split.
  - apply (proj2 (VectorTile_new_checks_address
                    Demo.pow2_saturating 1 1 0 ltac:(lia))); cbn; lia.
  - apply (proj1 (VectorTile_new_checks_address
                    Demo.pow2_saturating 0 1 0 ltac:(lia))).
    right; right; right; left. cbn. lia.
Defined.

(** *** Options *)

Lemma VectorTile_new_four (P : Z -> Z) (z x y : Z) (opts : js_value) :
  0 <= z <= 62 -> 0 <= x < 2 ^ z -> 0 <= y < 2 ^ z ->
  VectorTile_new P [JsNumber z; JsNumber x; JsNumber y; opts] =
  (o <- VectorTile_options [JsNumber z; JsNumber x; JsNumber y; opts] ;;
   let '(tile_size, buffer_size) := o in
   if tile_size + wrap32 (2 * buffer_size) <=? 0 then
     Throw (Error "too large of a negative buffer for tilesize")
   else Normal (merc_tile_new x y z tile_size buffer_size)).
Proof.
  intros Hz Hx Hy.
  pose proof (pow2_le_62 z Hz) as Hp.
  unfold VectorTile_new, Length, arg.
  cbn [List.length nth Z.of_nat].
  change (Z.of_nat 4 <? 3) with false. cbv zeta. unfold Int64Value.
  rewrite !saturate64_small by (unfold int64_min, int64_max; lia).
  rewrite max_at_zoom_exact by lia.
  destruct (Z.ltb_spec z 0); [lia|].
  destruct (Z.ltb_spec x 0); [lia|].
  destruct (Z.ltb_spec y 0); [lia|]. cbn [orb].
  destruct (Z.geb_spec x (2 ^ z)); [lia|].
  destruct (Z.geb_spec y (2 ^ z)); [lia|]. reflexivity.
Qed.

Lemma VectorTile_options_object (a0 a1 a2 : js_value)
  (options : list (string * js_value)) (ts bs : Z) :
  asks_tile_size options ts -> asks_buffer_size options bs ->
  VectorTile_options [a0; a1; a2; JsObject options] =
  if ts <=? 0 then
    Throw (TypeError "optional arg 'tile_size' must be greater then zero")
  else Normal ((if Has options "tile_size" then to_uint32 ts else ts), bs).
Proof.
  intros Hts Hbs. unfold VectorTile_options, Length, arg.
  cbn [List.length nth Z.of_nat IsObject negb props].
  change (3 <? Z.of_nat 4) with true. cbv iota.
  destruct Hts as [[Ht ->] | [Ht [n [Hg ->]]]];
    destruct Hbs as [[Hb ->] | [Hb [m [Hgb ->]]]];
    rewrite Ht, Hb; try rewrite Hg; try rewrite Hgb; cbn [bind];
    try reflexivity.
  - destruct (Int32Value n <=? 0); reflexivity.
  - destruct (Int32Value n <=? 0); reflexivity.
Qed.







(** ** The setters *)

(** The constructor establishes the size invariant when the [int] product
    is exact. *)
Lemma VectorTile_new_size_invariant (P : Z -> Z) (z x y : Z)
  (options : list (string * js_value)) (ts bs : Z) (t : merc_tile) :
  0 <= z <= 62 -> 0 <= x < 2 ^ z -> 0 <= y < 2 ^ z ->
  asks_tile_size options ts -> asks_buffer_size options bs ->
  - 2 ^ 30 <= bs ->
  VectorTile_new P [JsNumber z; JsNumber x; JsNumber y; JsObject options]
  = Normal t ->
  size_invariant t.
Proof.
  intros Hz Hx Hy Hts Hbs Hbs30.
  rewrite (VectorTile_new_four P z x y (JsObject options) Hz Hx Hy).
  rewrite (VectorTile_options_object _ _ _ options ts bs Hts Hbs).
  destruct (Z.leb_spec ts 0); [discriminate|]. cbn [bind].
  assert (Hts32 : 0 < ts <= int32_max).
  { destruct Hts as [[_ ->] | [_ [n [_ ->]]]].
    - unfold int32_max; lia.
    - pose proof (wrap32_range n). unfold Int32Value in *. lia. }
  assert (Hu : (if Has options "tile_size" then to_uint32 ts else ts) = ts).
  { destruct (Has options "tile_size"); [|reflexivity].
    apply to_uint32_small. unfold int32_max in Hts32. lia. }
  rewrite Hu.
  assert (Hbs32 : int32_min <= bs <= int32_max).
  { destruct Hbs as [[_ ->] | [_ [n [_ ->]]]].
    - unfold int32_min, int32_max; lia.
    - apply wrap32_range. }
  destruct (Z.leb_spec (ts + wrap32 (2 * bs)) 0) as [Hc|Hc]; [discriminate|].
  intros [= <-]. unfold size_invariant, merc_tile_new.
  cbn [tile_size_ buffer_size_].
  destruct (Z.lt_ge_cases bs (2 ^ 30)).
  - rewrite wrap32_small in Hc by (unfold int32_min, int32_max in *; lia). lia.
  - lia.
Qed.

(** [set_buffer_size] re-checks the size invariant (exactly so when the
    [int] product is exact). *)
Lemma set_buffer_size_keeps_size_invariant (t t' : merc_tile) (n : Z) :
  0 < tile_size_ t <= int32_max -> - 2 ^ 30 <= Int32Value n ->
  set_buffer_size t (JsNumber n) = (t', None) ->
  size_invariant t'.
Proof.
  intros Hts Hn. unfold set_buffer_size.
  pose proof (wrap32_range n) as Hr. unfold Int32Value in *.
  rewrite (wrap32_small (tile_size_ t)) by (unfold int32_min, int32_max in *; lia).
  destruct (Z.leb_spec
              (wrap32 (tile_size_ t + wrap32 (2 * wrap32 n))) 0) as [Hc|Hc];
    [discriminate|].
  intros [= <-]. unfold size_invariant, set_buffer_size_.
  cbn [tile_size_ buffer_size_].
  destruct (Z.lt_ge_cases (wrap32 n) (2 ^ 30)); [|lia].
  rewrite (wrap32_small (2 * wrap32 n)) in Hc
    by (unfold int32_min, int32_max in *; lia).
  destruct (Z.le_gt_cases (tile_size_ t + 2 * wrap32 n) int32_max).
  - rewrite wrap32_small in Hc by (unfold int32_min, int32_max in *; lia). lia.
  - lia.
Qed.

(** [set_tile_size] accepts exactly the Numbers whose 32-bit value is
    positive, whatever the buffer size. *)
Lemma set_tile_size_accepts (t : merc_tile) (n : Z) :
  0 < Int32Value n ->
  set_tile_size t (JsNumber n) = (set_tile_size_ t (Int32Value n), None).
Proof.
  intros H. unfold set_tile_size.
  destruct (Z.leb_spec (Int32Value n) 0); [lia|].
  rewrite to_uint32_small; [reflexivity|].
  pose proof (wrap32_range n). unfold Int32Value, int32_max in *. lia.
Qed.

(** C3 at [new VectorTile(0,0,0,{buffer_size:-100})] followed by
    [tileSize = 100]: the tile is built with the invariant, the assignment
    succeeds, and afterwards [tile_size + 2*buffer_size = -100]. *)
Theorem set_tile_size_breaks_size_invariant (P : Z -> Z) :
  exists t0 t1,
    VectorTile_new P
      [JsNumber 0; JsNumber 0; JsNumber 0;
       JsObject [("buffer_size", JsNumber (-100))]] = Normal t0
    /\ size_invariant t0
    /\ set_tile_size t0 (JsNumber 100) = (t1, None)
    /\ t1 = run_assignments t0 [Assign_tileSize (JsNumber 100)]
    /\ tile_size_ t1 + 2 * buffer_size_ t1 = -100
    /\ ~ size_invariant t1.
Proof.
  exists (merc_tile_new 0 0 0 4096 (-100)).
  exists (set_tile_size_ (merc_tile_new 0 0 0 4096 (-100)) 100).
  split.
  { rewrite VectorTile_new_four by (cbn; lia). reflexivity. }
  split; [unfold size_invariant; cbn; lia|].
  split; [reflexivity|].
  split; [reflexivity|].
  split; [reflexivity|].
  unfold size_invariant; cbn; lia.
Qed.

(** C4, as stated, fails: on the tile [(0,0,0)] the assignment [x = 5]
    succeeds and stores 5, outside [0 <= x < 2^0]; likewise for [y]. *)
Lemma set_tile_x_accepts_out_of_range :
  set_tile_x (merc_tile_new 0 0 0 4096 128) (JsNumber 5)
  = (merc_tile_new 5 0 0 4096 128, None)
  /\ ~ x_in_range (merc_tile_new 5 0 0 4096 128)
  /\ set_tile_y (merc_tile_new 0 0 0 4096 128) (JsNumber 5)
     = (merc_tile_new 0 5 0 4096 128, None)
  /\ ~ y_in_range (merc_tile_new 0 5 0 4096 128).
Proof.
  split; [reflexivity|]. split.
  { unfold x_in_range; cbn; lia. }
  split; [reflexivity|].
  unfold y_in_range; cbn; lia.
Qed.

(** C4, as the code has it: the setters of [x] and [y] check the sign
    only.  A successful assignment stores the 32-bit value of the Number,
    which is non-negative, and leaves the other fields alone; a Number
    whose 32-bit value is negative, or a value that is not a Number, is
    rejected with an error and the tile is unchanged. *)
Theorem address_setters_check_sign (t : merc_tile) (v : js_value) :
  (forall t', set_tile_x t v = (t', None) ->
     0 <= x_ t' /\ (exists n, v = JsNumber n /\ t' = set_x t (Int32Value n)))
  /\ (forall t', set_tile_y t v = (t', None) ->
     0 <= y_ t' /\ (exists n, v = JsNumber n /\ t' = set_y t (Int32Value n)))
  /\ ((forall n, v = JsNumber n -> Int32Value n < 0) ->
      (exists e, set_tile_x t v = (t, Some e))
      /\ (exists e, set_tile_y t v = (t, Some e))).
Proof.
  unfold set_tile_x, set_tile_y.
  split; [|split].
  - intros t' H. destruct v; try discriminate.
    destruct (Z.ltb_spec (Int32Value n) 0); [discriminate|].
    injection H as <-. split; [exact H0 | eauto].
  - intros t' H. destruct v; try discriminate.
    destruct (Z.ltb_spec (Int32Value n) 0); [discriminate|].
    injection H as <-. split; [exact H0 | eauto].
  - intros H. destruct v; try (split; eexists; reflexivity).
    specialize (H n eq_refl).
    destruct (Z.ltb_spec (Int32Value n) 0); [|lia].
    split; eexists; reflexivity.
Qed.

Lemma address_setters_check_sign_witness :
  0 <= x_ (set_x (merc_tile_new 0 0 0 4096 128) 3)
  /\ exists e,
       set_tile_x (merc_tile_new 0 0 0 4096 128) (JsNumber (-1))
       = (merc_tile_new 0 0 0 4096 128, Some e).
Proof.
  split.
  - apply (proj1 (address_setters_check_sign
                    (merc_tile_new 0 0 0 4096 128) (JsNumber 3))).
    reflexivity.
  - apply (proj2 (proj2 (address_setters_check_sign
                           (merc_tile_new 0 0 0 4096 128) (JsNumber (-1))))).
    intros n [= <-]. reflexivity.
Defined.

(** ** Methods without a body *)

Lemma compositeSync_inert (tile_ : merc_tile) (info : list js_value) :
  compositeSync tile_ info = (Normal JsUndefined, tile_)
  /\ composite tile_ info = (Normal JsUndefined, tile_).
Proof. split; reflexivity. Qed.

(** C1 on its scenario: two source tiles at [(1,0,0)] and [(1,1,0)], each
    with a one-feature layer [points], composited into the empty tile
    [(0,0,0)].  Both entry points return [undefined] and the destination
    keeps its empty buffer: no layer [points], no feature. *)
Theorem compositeSync_leaves_destination_empty :
  let src1 := Demo.tile_with 0 0 1 [T_LAYERS (Demo.points 1 10 10)] in
  let src2 := Demo.tile_with 1 0 1 [T_LAYERS (Demo.points 2 20 20)] in
  let dest := merc_tile_new 0 0 0 4096 128 in
  let info := [JsArray [JsVectorTile src1; JsVectorTile src2]] in
  feature_count "points" (buffer_ src1) = 1%nat
  /\ feature_count "points" (buffer_ src2) = 1%nat
  /\ compositeSync dest info = (Normal JsUndefined, dest)
  /\ composite dest info = (Normal JsUndefined, dest)
  /\ buffer_ (snd (compositeSync dest info)) = []
  /\ has_layer "points" (buffer_ (snd (compositeSync dest info))) = false
  /\ feature_count "points" (buffer_ (snd (compositeSync dest info))) = 0%nat.
Proof. cbv zeta. repeat split. Qed.

Lemma layer_inert (tile_ : merc_tile) (info : list js_value) :
  layer tile_ info = (Normal JsUndefined, tile_).
Proof. reflexivity. Qed.

(** C8 on a tile with layers [a] and [b]: asking for the absent layer [c]
    raises nothing, and asking for [a] returns no tile; both calls return
    [undefined]. *)
Theorem layer_returns_undefined :
  let t := Demo.tile_with 0 0 0 [T_LAYERS [L_NAME "a"]; T_LAYERS [L_NAME "b"]] in
  has_layer "a" (buffer_ t) = true
  /\ has_layer "c" (buffer_ t) = false
  /\ layer t [JsString "c"] = (Normal JsUndefined, t)
  /\ layer t [JsString "a"] = (Normal JsUndefined, t).
Proof. cbv zeta. repeat split. Qed.

(** ** Pixel visitors *)

(** C10: on the null image, [visitor_get_pixel] returns [undefined] for
    all coordinates, whatever [get_pixel] would do, and [visitor_set_pixel]
    returns the image as it was, whatever [set_pixel] would do. *)
Theorem pixel_visitors_total_on_null (image_data : Type)
  (get_pixel : image_data -> Z -> Z -> completion Z)
  (set_pixel : image_data -> Z -> Z -> Z -> image_data) (num x y : Z) :
  visitor_get_pixel get_pixel x y image_null = Normal JsUndefined
  /\ visitor_set_pixel set_pixel num x y image_null = image_null.
Proof. split; reflexivity. Qed.

(** ** The simplicity check *)

Section SimplicityFacts.

Context {coord value : Type}.
Variable M : mapnik_api coord value.

Lemma not_simple_loop_spec (name : string)
  (fs : list (feature_impl coord value)) (errors : list not_simple_feature) :
  not_simple_loop M name fs errors =
  errors ++
  map (fun f => mk_not_simple_feature name (id f))
      (filter (fun f => negb (is_simple M (get_geometry f))) fs).
Proof.
  revert errors. induction fs as [|f fs IH]; intros errors; cbn [not_simple_loop].
  - cbn. now rewrite app_nil_r.
  - rewrite IH. cbn [filter].
    destruct (negb (is_simple M (get_geometry f))); cbn [map].
    + now rewrite <- app_assoc.
    + reflexivity.
Qed.

Lemma layer_not_simple_spec (l : layer_msg) (x y z : Z)
  (errors : list not_simple_feature) :
  layer_not_simple M l x y z errors = errors ++ not_simple_of_layer M l x y z.
Proof.
  unfold layer_not_simple, not_simple_of_layer.
  destruct (ds_features M l x y z) as [fs|].
  - apply not_simple_loop_spec.
  - now rewrite app_nil_r.
Qed.

Lemma not_simple_layers_spec (buf : tile_buffer) (x y z : Z)
  (errors : list not_simple_feature) :
  not_simple_layers M buf x y z errors =
  errors ++ flat_map (fun l => not_simple_of_layer M l x y z) (layers buf).
Proof.
  revert errors.
  induction buf as [|[l|tag] buf IH]; intros errors;
    cbn [not_simple_layers layers flat_map].
  - now rewrite app_nil_r.
  - rewrite IH, layer_not_simple_spec. now rewrite <- app_assoc.
  - apply IH.
Qed.


End SimplicityFacts.


(** ** The validity check *)

Lemma geometry_nested_ind (coord : Type) (Q : geometry coord -> Prop) :
  Q geometry_empty ->
  (forall g, Q (geom_point g)) ->
  (forall g, Q (geom_line_string g)) ->
  (forall g, Q (geom_polygon g)) ->
  (forall g, Q (geom_multi_point g)) ->
  (forall g, Q (geom_multi_line_string g)) ->
  (forall g, Q (geom_multi_polygon g)) ->
  (forall gs, Forall Q gs -> Q (geom_collection gs)) ->
  forall g, Q g.
Proof.
  intros He Hp Hl Hpo Hmp Hml Hmpo Hc.
  fix IH 1. intros [ | g | g | g | g | g | g | gs ].
  - exact He.
  - apply Hp.
  - apply Hl.
  - apply Hpo.
  - apply Hmp.
  - apply Hml.
  - apply Hmpo.
  - apply Hc. induction gs as [|g gs IHgs]; constructor;
      [apply IH | exact IHgs].
Qed.

Section ValidityFacts.

Context {coord value : Type}.
Variable M : mapnik_api coord value.

Lemma emplace_invalid_spec (errors : list not_valid_feature)
  (feature : feature_impl coord value) (name msg : string)
  (g : geometry coord) :
  emplace_invalid M errors feature name msg g =
  match to_geojson M (mk_feature (context feature) (id feature)
                                 (get_data feature) g) with
  | None => Throw (Error "Failed to generate GeoJSON geometry")
  | Some _ =>
      Normal (errors ++
              [mk_not_valid_feature msg name (id feature)
                                    (geojson_for M feature g)])
  end.
Proof.
  unfold emplace_invalid, geojson_for, feature_factory_create, set_data,
    set_geometry.
  cbn [context id get_data get_geometry].
  destruct (to_geojson M _); reflexivity.
Qed.

(** *** Every record names the feature the visitor was built with *)

Lemma appends_reports_nothing (feature : feature_impl coord value) name errors :
  appends_reports feature name errors (Normal errors).
Proof.
  intros errors' [= <-]. exists []. now rewrite app_nil_r.
Qed.

Lemma emplace_invalid_reports errors (feature : feature_impl coord value)
  name msg g :
  appends_reports feature name errors
    (emplace_invalid M errors feature name msg g).
Proof.
  intros errors'. rewrite emplace_invalid_spec.
  destruct (to_geojson M _); [|discriminate].
  intros [= <-]. eexists. split; [reflexivity|].
  constructor; [split; reflexivity | constructor].
Qed.

Lemma check_whole_reports {G : Type} (is_valid : G -> bool * string) inj
  errors feature name (geom : G) :
  appends_reports feature name errors
    (check_whole M is_valid inj errors feature name geom).
Proof.
  unfold check_whole. destruct (is_valid geom) as [ok msg].
  destruct ok; cbn [negb];
    [apply appends_reports_nothing | apply emplace_invalid_reports].
Qed.

Lemma check_multi_reports {G : Type} (is_valid : G -> bool * string) inj
  errors feature name (geom : G) :
  appends_reports feature name errors
    (check_multi M is_valid inj errors feature name geom).
Proof.
  unfold check_multi. destruct (is_valid geom) as [ok msg].
  destruct ok; cbn [negb];
    [apply appends_reports_nothing | apply emplace_invalid_reports].
Qed.

Lemma appends_reports_bind (feature : feature_impl coord value) name errors
  (m : completion (list not_valid_feature))
  (k : list not_valid_feature -> completion (list not_valid_feature)) :
  appends_reports feature name errors m ->
  (forall mid, appends_reports feature name mid (k mid)) ->
  appends_reports feature name errors (bind m k).
Proof.
  intros Hm Hk errors'. destruct m as [mid|e]; cbn [bind]; [|discriminate].
  intros Hrun.
  destruct (Hm mid eq_refl) as [new1 [-> F1]].
  destruct (Hk _ errors' Hrun) as [new2 [-> F2]].
  exists (new1 ++ new2). split; [now rewrite app_assoc|].
  apply Forall_app; split; assumption.
Qed.

Lemma check_parts_reports {P : Type} (is_valid : P -> bool * string) inj
  feature name (parts : list P) errors :
  appends_reports feature name errors
    (check_parts M is_valid inj errors feature name parts).
Proof.
  revert errors. induction parts as [|p parts IH]; intros errors;
    cbn [check_parts].
  - apply appends_reports_nothing.
  - destruct (is_valid p) as [ok msg].
    apply appends_reports_bind; [|intros mid; apply IH].
    destruct ok; cbn [negb];
      [apply appends_reports_nothing | apply emplace_invalid_reports].
Qed.

Lemma visitor_geom_valid_reports feature name split (geom : geometry coord) :
  forall errors,
    appends_reports feature name errors
      (visitor_geom_valid M errors feature name split geom).
Proof.
  induction geom using geometry_nested_ind; intros errors;
    cbn [visitor_geom_valid].
  - apply appends_reports_nothing.
  - apply check_whole_reports.
  - apply check_whole_reports.
  - apply check_whole_reports.
  - apply check_whole_reports.
  - destruct split; [apply check_parts_reports | apply check_multi_reports].
  - destruct split; [apply check_parts_reports | apply check_multi_reports].
  - revert errors. induction H as [|g gs Hg Hgs IH]; intros errors.
    + apply appends_reports_nothing.
    + intros errors' Hrun.
      destruct (visitor_geom_valid M errors feature name split g) as [mid|e] eqn:E;
        [|discriminate].
      destruct (Hg errors mid E) as [new1 [-> F1]].
      destruct (IH _ errors' Hrun) as [new2 [-> F2]].
      exists (new1 ++ new2). split; [now rewrite app_assoc|].
      apply Forall_app; split; assumption.
Qed.

(** In the branch taken without [web_merc] and [lat_lon], the feature
    handed to the visitor is the one made by [feature_factory::create(ctx,1)]:
    every record carries the id 1. *)
Lemma check_feature_msg_reports_one errors name version split m :
  appends_reports (feature_factory_create (coord:=coord) (value:=value) [] 1)
    name errors
    (check_feature_msg M errors name version split m).
Proof.
  unfold check_feature_msg.
  destruct (has_geom _ && has_geom_type _); [|apply appends_reports_nothing].
  intros errors' Hrun.
  apply visitor_geom_valid_reports in Hrun.
  destruct Hrun as [new [-> F]]. exists new. split; [reflexivity|].
  exact F.
Qed.

Lemma check_feature_msgs_reports_one name version split msgs errors :
  appends_reports (feature_factory_create (coord:=coord) (value:=value) [] 1)
    name errors
    (check_feature_msgs M errors name version split msgs).
Proof.
  revert errors. induction msgs as [|m msgs IH]; intros errors;
    cbn [check_feature_msgs].
  - apply appends_reports_nothing.
  - apply appends_reports_bind; [|intros mid; apply IH].
    apply check_feature_msg_reports_one.
Qed.

Lemma not_valid_layers_default_id_one buf x y z split errors errors' :
  not_valid_layers M buf x y z errors split false false = Normal errors' ->
  exists new, errors' = errors ++ new /\ Forall (fun e => feature_id e = 1) new.
Proof.
  revert errors. induction buf as [|[l|tag] buf IH]; intros errors;
    cbn [not_valid_layers].
  - intros [= <-]. exists []. now rewrite app_nil_r.
  - unfold layer_not_valid at 1. cbn [orb].
    destruct (check_feature_msgs M errors _ _ split _) as [mid|e] eqn:E;
      cbn [bind]; [|discriminate].
    intros Hrun.
    destruct (check_feature_msgs_reports_one _ _ _ _ _ _ E) as [new1 [-> F1]].
    destruct (IH _ Hrun) as [new2 [-> F2]].
    exists (new1 ++ new2). split; [now rewrite app_assoc|].
    apply Forall_app; split; [|exact F2].
    eapply Forall_impl; [|exact F1]. intros e [He _]. exact He.
  - apply IH.
Qed.


(** C5 on the default options: whatever ids the features of the tile
    encode, every record of the validity check carries [featureId = 1]. *)
Theorem reportGeometryValiditySync_default_reports_id_one
  (tile_ : merc_tile) (split : bool) (errors : list not_valid_feature) :
  vector_tile_not_valid M tile_ [] split false false = Normal errors ->
  Forall (fun e => feature_id e = 1) errors
  /\ (split = false ->
      reportGeometryValiditySync M tile_ []
      = Normal (make_not_valid_array errors)).
Proof.
  intros Hrun. split.
  - unfold vector_tile_not_valid in Hrun.
    apply not_valid_layers_default_id_one in Hrun.
    destruct Hrun as [new [-> F]]. exact F.
  - intros ->. unfold reportGeometryValiditySync, Length.
    cbn [List.length Z.of_nat]. change (1 <=? 0) with false.
    cbn [bind]. rewrite Hrun. reflexivity.
Qed.

End ValidityFacts.

(** ** Multi geometries in the validity check *)

Section MultiGeometries.

Context {coord value : Type}.
Variable M : mapnik_api coord value.

(** The GeoJSON writer does not fail (the [throw] after it is excluded
    from coverage in the source as unreachable). *)
Hypothesis to_geojson_writes : forall f, to_geojson M f <> None.

Lemma emplace_invalid_writes errors (feature : feature_impl coord value)
  name msg g :
  emplace_invalid M errors feature name msg g =
  Normal (errors ++
          [mk_not_valid_feature msg name (id feature)
                                (geojson_for M feature g)]).
Proof.
  rewrite emplace_invalid_spec.
  destruct (to_geojson M _) eqn:E; [reflexivity|].
  now apply to_geojson_writes in E.
Qed.

Lemma check_parts_spec {P : Type} (is_valid : P -> bool * string) inj
  (feature : feature_impl coord value) name (parts : list P) errors :
  check_parts M is_valid inj errors feature name parts =
  Normal (errors ++
          map (record_for M is_valid inj feature name)
              (invalid_parts is_valid parts)).
Proof.
  revert errors. induction parts as [|p parts IH]; intros errors;
    cbn [check_parts invalid_parts filter].
  - cbn. now rewrite app_nil_r.
  - destruct (is_valid p) as [ok msg] eqn:E.
    cbn [fst]. destruct ok; cbn [negb bind map].
    + apply IH.
    + rewrite emplace_invalid_writes. cbn [bind]. rewrite IH.
      rewrite <- app_assoc. cbn [app].
      unfold record_for at 2. rewrite E. reflexivity.
Qed.

Lemma check_multi_spec {G : Type} (is_valid : G -> bool * string) inj
  (feature : feature_impl coord value) name (geom : G) errors :
  check_multi M is_valid inj errors feature name geom =
  Normal (errors ++
          if fst (is_valid geom) then []
          else [record_for M is_valid inj feature name geom]).
Proof.
  unfold check_multi, record_for. destruct (is_valid geom) as [ok msg].
  cbn [fst snd]. destruct ok; cbn [negb].
  - now rewrite app_nil_r.
  - apply emplace_invalid_writes.
Qed.

(** C7: on a multi-line-string or a multi-polygon, with
    [split_multi_features] the visitor tests each part by itself and
    appends, in order, exactly one record per part that is not valid; without
    it the visitor tests the whole geometry once and appends one record if
    it is not valid and none otherwise. *)
Theorem visitor_geom_valid_multi (errors : list not_valid_feature)
  (feature : feature_impl coord value) (name : string) :
  (forall g : multi_line_string coord,
     visitor_geom_valid M errors feature name true (geom_multi_line_string g)
     = Normal (errors ++
               map (record_for M (is_valid_line_string M) geom_line_string
                               feature name)
                   (invalid_parts (is_valid_line_string M) g))
     /\ exists new,
          visitor_geom_valid M errors feature name false
                             (geom_multi_line_string g)
          = Normal (errors ++ new)
          /\ (List.length new <= 1)%nat
          /\ new = (if fst (is_valid_multi_line_string M g) then []
                    else [record_for M (is_valid_multi_line_string M)
                                     geom_multi_line_string feature name g]))
  /\ (forall g : multi_polygon coord,
     visitor_geom_valid M errors feature name true (geom_multi_polygon g)
     = Normal (errors ++
               map (record_for M (is_valid_polygon M) geom_polygon
                               feature name)
                   (invalid_parts (is_valid_polygon M) g))
     /\ exists new,
          visitor_geom_valid M errors feature name false
                             (geom_multi_polygon g)
          = Normal (errors ++ new)
          /\ (List.length new <= 1)%nat
          /\ new = (if fst (is_valid_multi_polygon M g) then []
                    else [record_for M (is_valid_multi_polygon M)
                                     geom_multi_polygon feature name g])).
Proof.
  split; intros g; cbn [visitor_geom_valid]; (split; [apply check_parts_spec|]);
    rewrite check_multi_spec; eexists; (split; [reflexivity|]);
    (split; [|reflexivity]).
  - destruct (fst (is_valid_multi_line_string M g)); cbn; lia.
  - destruct (fst (is_valid_multi_polygon M g)); cbn; lia.
Qed.

End MultiGeometries.

(** ** The checks on concrete tiles *)

Lemma visitor_geom_valid_multi_witness :
  visitor_geom_valid Demo.api [] (feature_factory_create [] 9) "roads" true
    (geom_multi_line_string
       [[mk_point 0 0]; [mk_point 0 0; mk_point 1 1]; []])
  = Normal
      [mk_not_valid_feature "Geometry has too few points" "roads" 9
         (feature_collection_open ++ "{}" ++ "]}")%string;
       mk_not_valid_feature "Geometry has too few points" "roads" 9
         (feature_collection_open ++ "{}" ++ "]}")%string].
Proof.
  apply (proj1 (proj1 (visitor_geom_valid_multi Demo.api
                         (fun f (H : Some "{}"%string = None) =>
                            match H with end)
                         [] (feature_factory_create [] 9) "roads")
                      [[mk_point 0 0]; [mk_point 0 0; mk_point 1 1]; []])).
Defined.

Lemma reportGeometryValiditySync_default_reports_id_one_witness :
  encoded_id [F_ID 7; F_TYPE 3; F_GEOMETRY [0; 0; 4; 4; 0; 0]] = 7
  /\ Forall (fun e => feature_id e = 1)
       [mk_not_valid_feature "Geometry has too few points" "parcels" 1
          (feature_collection_open ++ "{}" ++ "]}")%string].
Proof.
  split; [reflexivity|].
  apply (proj1 (reportGeometryValiditySync_default_reports_id_one Demo.api
                  (Demo.tile_with 0 0 0 [T_LAYERS Demo.parcels]) false _
                  eq_refl)).
Defined.

(** ** More on the constructor *)

Lemma Length_ge_3 (a0 a1 a2 : js_value) (rest : list js_value) :
  (Length (a0 :: a1 :: a2 :: rest) <? 3) = false.
Proof.
  unfold Length. destruct (Z.ltb_spec (Z.of_nat
    (List.length (a0 :: a1 :: a2 :: rest))) 3) as [H|H]; [|reflexivity].
  cbn [List.length] in H. lia.
Qed.

Lemma Length_gt_3 (a0 a1 a2 a3 : js_value) (rest : list js_value) :
  (3 <? Length (a0 :: a1 :: a2 :: a3 :: rest)) = true.
Proof.
  unfold Length. destruct (Z.ltb_spec 3 (Z.of_nat
    (List.length (a0 :: a1 :: a2 :: a3 :: rest)))) as [H|H]; [reflexivity|].
  cbn [List.length] in H. lia.
Qed.

(** The constructor on at least three arguments, the first three being
    Numbers. *)
Lemma VectorTile_new_numbers (P : Z -> Z) (nz nx ny : Z)
  (rest : list js_value) :
  VectorTile_new P (JsNumber nz :: JsNumber nx :: JsNumber ny :: rest) =
  let z := Int64Value nz in
  let x := Int64Value nx in
  let y := Int64Value ny in
  if (z <? 0) || (x <? 0) || (y <? 0) then
    Throw (TypeError
      "required parameters (z, x, and y) must be greater then or equal to zero")
  else if x >=? max_at_zoom P z then
    Throw (TypeError
      "required parameter x is out of range of possible values based on z value")
  else if y >=? max_at_zoom P z then
    Throw (TypeError
      "required parameter y is out of range of possible values based on z value")
  else
    o <- VectorTile_options
           (JsNumber nz :: JsNumber nx :: JsNumber ny :: rest) ;;
    let '(tile_size, buffer_size) := o in
    if tile_size + wrap32 (2 * buffer_size) <=? 0 then
      Throw (Error "too large of a negative buffer for tilesize")
    else Normal (merc_tile_new x y z tile_size buffer_size).
Proof.
  unfold VectorTile_new. rewrite Length_ge_3. unfold arg. cbn [nth]. cbv zeta.
  destruct ((Int64Value nz <? 0) || (Int64Value nx <? 0) || (Int64Value ny <? 0));
    [reflexivity|].
  destruct (Int64Value nx >=? max_at_zoom P (Int64Value nz)); [reflexivity|].
  destruct (Int64Value ny >=? max_at_zoom P (Int64Value nz)); reflexivity.
Qed.

(** The sizes the options block returns are a positive [int] and an
    [int]. *)
Lemma VectorTile_options_range (info : list js_value) (ts bs : Z) :
  VectorTile_options info = Normal (ts, bs) ->
  0 < ts <= int32_max /\ int32_min <= bs <= int32_max.
Proof.
  unfold VectorTile_options.
  destruct (3 <? Length info).
  2:{ intros [= <- <-]. unfold int32_min, int32_max. lia. }
  destruct (negb (IsObject (arg info 3))); [discriminate|].
  set (options := props (arg info 3)).
  assert (Hts : forall r,
    (if Has options "tile_size" then
       match Get options "tile_size" with
       | JsNumber n =>
           if Int32Value n <=? 0 then
             Throw (TypeError "optional arg 'tile_size' must be greater then zero")
           else Normal (to_uint32 (Int32Value n))
       | _ => Throw (TypeError "optional arg 'tile_size' must be a number")
       end
     else Normal 4096) = Normal r -> 0 < r <= int32_max).
  { intros r. destruct (Has options "tile_size").
    - destruct (Get options "tile_size"); try discriminate.
      destruct (Z.leb_spec (Int32Value n) 0); [discriminate|].
      intros [= <-]. pose proof (wrap32_range n). unfold Int32Value in *.
      rewrite to_uint32_small; unfold int32_max in *; lia.
    - intros [= <-]. unfold int32_max. lia. }
  assert (Hbs : forall r,
    (if Has options "buffer_size" then
       match Get options "buffer_size" with
       | JsNumber n => Normal (Int32Value n)
       | _ => Throw (TypeError "optional arg 'buffer_size' must be a number")
       end
     else Normal 128) = Normal r -> int32_min <= r <= int32_max).
  { intros r. destruct (Has options "buffer_size").
    - destruct (Get options "buffer_size"); try discriminate.
      intros [= <-]. apply wrap32_range.
    - intros [= <-]. unfold int32_min, int32_max. lia. }
  cbv zeta.
  match goal with
  | |- bind ?m _ = _ -> _ => destruct m as [r1|] eqn:E1
  end; cbn [bind]; [|discriminate].
  match goal with
  | |- bind ?m _ = _ -> _ => destruct m as [r2|] eqn:E2
  end; cbn [bind]; [|discriminate].
  intros [= <- <-]. split; [apply Hts | apply Hbs]; reflexivity.
Qed.

(** Everything known of a tile the constructor has built from numbers. *)
Lemma VectorTile_new_built (P : Z -> Z) (info : list js_value)
  (t : merc_tile) :
  VectorTile_new P info = Normal t ->
  is_external_call info
  \/ (tile_fields_ok t
      /\ x_ t <= int64_max /\ y_ t <= int64_max /\ z_ t <= int64_max
      /\ buffer_ t = []
      /\ (z_ t <= 62 -> x_ t < 2 ^ z_ t /\ y_ t < 2 ^ z_ t)
      /\ 0 < tile_size_ t + wrap32 (2 * buffer_size_ t)).
Proof.
  intros Hnew.
  destruct info as [|a0 [|a1 [|a2 rest]]].
  - cbv in Hnew. discriminate.
  - destruct a0; try (cbv in Hnew; discriminate). left. now exists ptr.
  - destruct a0; cbv in Hnew; discriminate.
  - right.
    assert (Hn : exists nz nx ny,
               a0 = JsNumber nz /\ a1 = JsNumber nx /\ a2 = JsNumber ny).
    { unfold VectorTile_new in Hnew.
      destruct a0; rewrite Length_ge_3 in Hnew; unfold arg in Hnew;
        cbn [nth] in Hnew; try discriminate;
        destruct a1; try discriminate;
        destruct a2; try discriminate.
      exists n, n0, n1. repeat split. }
    destruct Hn as [nz [nx [ny [-> [-> ->]]]]].
    rewrite VectorTile_new_numbers in Hnew. cbv zeta in Hnew.
    unfold Int64Value in Hnew.
    pose proof (saturate64_range nz) as Rz.
    pose proof (saturate64_range nx) as Rx.
    pose proof (saturate64_range ny) as Ry.
    destruct (Z.ltb_spec (saturate64 nz) 0); [discriminate|].
    destruct (Z.ltb_spec (saturate64 nx) 0); [discriminate|].
    destruct (Z.ltb_spec (saturate64 ny) 0); [discriminate|].
    cbn [orb] in Hnew.
    destruct (Z.geb_spec (saturate64 nx) (max_at_zoom P (saturate64 nz)))
      as [|Hx]; [discriminate|].
    destruct (Z.geb_spec (saturate64 ny) (max_at_zoom P (saturate64 nz)))
      as [|Hy]; [discriminate|].
    destruct (VectorTile_options _) as [[ts bs]|] eqn:Eo;
      cbn [bind] in Hnew; [|discriminate].
    apply VectorTile_options_range in Eo. destruct Eo as [Hts Hbs].
    destruct (Z.leb_spec (ts + wrap32 (2 * bs)) 0); [discriminate|].
    injection Hnew as <-. unfold tile_fields_ok, merc_tile_new.
    cbn [x_ y_ z_ tile_size_ buffer_size_ buffer_].
    assert (Hzoom : saturate64 nz <= 62 ->
                    saturate64 nx < 2 ^ saturate64 nz
                    /\ saturate64 ny < 2 ^ saturate64 nz).
    { intros Hz62. rewrite max_at_zoom_exact in Hx, Hy by lia. lia. }
    repeat split; try lia; apply Hzoom; assumption.
Qed.

(** X1: unless it is the single External of the copying path, an argument
    list shorter than three is refused with "please provide a z, x, y", and
    a longer one whose first three values are not all Numbers with the
    TypeError on the parameters; no tile is built. *)
Theorem VectorTile_new_argument_errors (P : Z -> Z) (info : list js_value) :
  ~ is_external_call info ->
  ((List.length info < 3)%nat ->
   VectorTile_new P info = Throw (Error "please provide a z, x, y"))
  /\ ((3 <= List.length info)%nat ->
      IsNumber (arg info 0) && IsNumber (arg info 1) && IsNumber (arg info 2)
      = false ->
      VectorTile_new P info
      = Throw (TypeError
                 "required parameters (z, x, and y) must be a integers")).
Proof.
  intros Hext. split.
  - intros Hlen. destruct info as [|a0 [|a1 [|a2 rest]]].
    + reflexivity.
    + destruct a0; try reflexivity. exfalso. apply Hext. now exists ptr.
    + destruct a0; reflexivity.
    + cbn [List.length] in Hlen. lia.
  - intros Hlen Hnum. destruct info as [|a0 [|a1 [|a2 rest]]];
      try (cbn [List.length] in Hlen; lia).
    unfold arg in Hnum. cbn [nth] in Hnum.
    unfold VectorTile_new.
    destruct a0; rewrite Length_ge_3; unfold arg; cbn [nth]; try reflexivity.
    destruct a1; try reflexivity.
    destruct a2; try reflexivity.
    discriminate.
Qed.

Lemma VectorTile_new_argument_errors_witness :
  VectorTile_new Demo.pow2_saturating [JsNumber 1; JsNumber 0]
  = Throw (Error "please provide a z, x, y")
  /\ VectorTile_new Demo.pow2_saturating
       [JsNumber 1; JsString "0"; JsNumber 0]
     = Throw (TypeError
                "required parameters (z, x, and y) must be a integers").
Proof.
  split.
  - apply (proj1 (VectorTile_new_argument_errors Demo.pow2_saturating
                    [JsNumber 1; JsNumber 0]
                    (fun H => match H with ex_intro _ _ E =>
                                ltac:(discriminate E) end))).
    cbn. lia.
  - apply (proj2 (VectorTile_new_argument_errors Demo.pow2_saturating
                    [JsNumber 1; JsString "0"; JsNumber 0]
                    (fun H => match H with ex_intro _ _ E =>
                                ltac:(discriminate E) end))).
    + cbn. lia.
    + reflexivity.
Defined.

(** X2: on an accepted address, a fourth argument that is not an object,
    a [tile_size] option that is not a Number, and (the tile size being
    acceptable) a [buffer_size] option that is not a Number are each
    refused with their own TypeError; no tile is built. *)
Theorem VectorTile_new_option_type_errors (P : Z -> Z) (z x y : Z)
  (opts : js_value) :
  0 <= z <= 62 -> 0 <= x < 2 ^ z -> 0 <= y < 2 ^ z ->
  (IsObject opts = false ->
   VectorTile_new P [JsNumber z; JsNumber x; JsNumber y; opts]
   = Throw (TypeError "optional fourth argument must be an options object"))
  /\ (forall options,
        opts = JsObject options ->
        Has options "tile_size" = true ->
        IsNumber (Get options "tile_size") = false ->
        VectorTile_new P [JsNumber z; JsNumber x; JsNumber y; opts]
        = Throw (TypeError "optional arg 'tile_size' must be a number"))
  /\ (forall options ts,
        opts = JsObject options ->
        asks_tile_size options ts -> 0 < ts ->
        Has options "buffer_size" = true ->
        IsNumber (Get options "buffer_size") = false ->
        VectorTile_new P [JsNumber z; JsNumber x; JsNumber y; opts]
        = Throw (TypeError "optional arg 'buffer_size' must be a number")).
Proof.
  intros Hz Hx Hy. rewrite (VectorTile_new_four P z x y opts Hz Hx Hy).
  unfold VectorTile_options. rewrite Length_gt_3. unfold arg. cbn [nth].
  split; [|split].
  - intros ->. reflexivity.
  - intros options -> Hhas Hnum. cbn [IsObject negb props]. rewrite Hhas.
    destruct (Get options "tile_size"); try reflexivity. discriminate.
  - intros options ts -> Hts Hpos Hhas Hnum. cbn [IsObject negb props].
    destruct Hts as [[Ht ->] | [Ht [n [Hg ->]]]]; rewrite Ht.
    + cbn [bind]. rewrite Hhas.
      destruct (Get options "buffer_size"); try reflexivity. discriminate.
    + rewrite Hg. destruct (Z.leb_spec (Int32Value n) 0); [lia|].
      cbn [bind]. rewrite Hhas.
      destruct (Get options "buffer_size"); try reflexivity. discriminate.
Qed.

Lemma VectorTile_new_option_type_errors_witness :
  VectorTile_new Demo.pow2_saturating
    [JsNumber 0; JsNumber 0; JsNumber 0; JsNumber 256]
  = Throw (TypeError "optional fourth argument must be an options object")
  /\ VectorTile_new Demo.pow2_saturating
       [JsNumber 0; JsNumber 0; JsNumber 0;
        JsObject [("tile_size", JsString "256")]]
     = Throw (TypeError "optional arg 'tile_size' must be a number")
  /\ VectorTile_new Demo.pow2_saturating
       [JsNumber 0; JsNumber 0; JsNumber 0;
        JsObject [("buffer_size", JsNull)]]
     = Throw (TypeError "optional arg 'buffer_size' must be a number").
Proof.
  split; [|split].
  - apply (proj1 (VectorTile_new_option_type_errors Demo.pow2_saturating
                    0 0 0 (JsNumber 256) ltac:(lia) ltac:(cbn; lia)
                    ltac:(cbn; lia))).
    reflexivity.
  - apply (proj1 (proj2 (VectorTile_new_option_type_errors
                           Demo.pow2_saturating 0 0 0
                           (JsObject [("tile_size", JsString "256")])
                           ltac:(lia) ltac:(cbn; lia) ltac:(cbn; lia)))
             [("tile_size", JsString "256")]); reflexivity.
  - apply (proj2 (proj2 (VectorTile_new_option_type_errors
                           Demo.pow2_saturating 0 0 0
                           (JsObject [("buffer_size", JsNull)])
                           ltac:(lia) ltac:(cbn; lia) ltac:(cbn; lia)))
             [("buffer_size", JsNull)] 4096);
      try reflexivity; left; split; reflexivity.
Defined.



(** X4: every tile the constructor builds from numbers with a buffer size
    of at least [-2^30] has [tile_size + 2*buffer_size > 0]. *)
Theorem VectorTile_new_size_invariant_any (P : Z -> Z)
  (info : list js_value) (t : merc_tile) :
  VectorTile_new P info = Normal t ->
  ~ is_external_call info ->
  - 2 ^ 30 <= buffer_size_ t ->
  size_invariant t.
Proof.
  intros Hnew Hext Hbs.
  destruct (VectorTile_new_built P info t Hnew)
    as [H | [Hok [_ [_ [_ [_ [_ Hc]]]]]]]; [contradiction|].
  destruct Hok as [_ [_ [_ [Hts Hbsr]]]].
  unfold size_invariant.
  destruct (Z.lt_ge_cases (buffer_size_ t) (2 ^ 30)).
  - rewrite wrap32_small in Hc by (unfold int32_min, int32_max in *; lia). lia.
  - lia.
Qed.

Lemma VectorTile_new_size_invariant_any_witness :
  size_invariant (merc_tile_new 0 0 0 256 (-100)).
Proof.
  apply (VectorTile_new_size_invariant_any Demo.pow2_saturating
           [JsNumber 0; JsNumber 0; JsNumber 0;
            JsObject [("tile_size", JsNumber 256);
                      ("buffer_size", JsNumber (-100))]]).
  - reflexivity.
  - intros [ext E]. discriminate E.
  - cbn. lia.
Defined.

(** X5: the constructor reads its first four arguments only, and of the
    options only [tile_size] and [buffer_size]: further arguments, and a
    property of the options object under any other name, change neither
    the tile built nor the error raised. *)
Theorem VectorTile_new_ignores_the_rest (P : Z -> Z)
  (a0 a1 a2 a3 : js_value) (rest : list js_value) :
  VectorTile_new P (a0 :: a1 :: a2 :: a3 :: rest)
  = VectorTile_new P [a0; a1; a2; a3]
  /\ (forall k v options,
        k <> "tile_size" -> k <> "buffer_size" ->
        VectorTile_new P [a0; a1; a2; JsObject ((k, v) :: options)]
        = VectorTile_new P [a0; a1; a2; JsObject options]).
Proof.
  split.
  - assert (Ho : VectorTile_options (a0 :: a1 :: a2 :: a3 :: rest)
                 = VectorTile_options [a0; a1; a2; a3]).
    { unfold VectorTile_options. now rewrite !Length_gt_3. }
    unfold VectorTile_new.
    destruct a0; rewrite !Length_ge_3; unfold arg; cbn [nth];
      try reflexivity.
    now rewrite Ho.
  - intros k v options Hk1 Hk2.
    assert (Ho : VectorTile_options [a0; a1; a2; JsObject ((k, v) :: options)]
                 = VectorTile_options [a0; a1; a2; JsObject options]).
    { unfold VectorTile_options. rewrite !Length_gt_3. unfold arg.
      cbn [nth IsObject negb props Has Get existsb fst].
      apply String.eqb_neq in Hk1. apply String.eqb_neq in Hk2.
      rewrite Hk1, Hk2. reflexivity. }
    unfold VectorTile_new.
    destruct a0; rewrite !Length_ge_3; unfold arg; cbn [nth];
      try reflexivity.
    now rewrite Ho.
Qed.

(** X6: on an accepted address and with an acceptable tile size, every
    buffer size below [-2^30] passes the constructor's check, the [int]
    product [2 * buffer_size] having wrapped to a non-negative value: the
    tile is built and has [tile_size + 2*buffer_size < 0]. *)
Theorem VectorTile_new_accepts_every_wrapped_buffer (P : Z -> Z)
  (z x y : Z) (options : list (string * js_value)) (ts bs : Z) :
  0 <= z <= 62 -> 0 <= x < 2 ^ z -> 0 <= y < 2 ^ z ->
  asks_tile_size options ts -> asks_buffer_size options bs ->
  0 < ts -> bs < - 2 ^ 30 ->
  VectorTile_new P [JsNumber z; JsNumber x; JsNumber y; JsObject options]
  = Normal (merc_tile_new x y z ts bs)
  /\ tile_size_ (merc_tile_new x y z ts bs)
     + 2 * buffer_size_ (merc_tile_new x y z ts bs) < 0.
Proof.
  intros Hz Hx Hy Hts Hbs Hpos Hlow.
  assert (Hts32 : 0 < ts <= int32_max).
  { destruct Hts as [[_ ->] | [_ [n [_ ->]]]].
    - unfold int32_max; lia.
    - pose proof (wrap32_range n). unfold Int32Value in *. lia. }
  assert (Hbs32 : int32_min <= bs <= int32_max).
  { destruct Hbs as [[_ ->] | [_ [n [_ ->]]]].
    - unfold int32_min, int32_max; lia.
    - apply wrap32_range. }
  split; [|cbn [tile_size_ buffer_size_ merc_tile_new];
           unfold int32_max in *; lia].
  rewrite (VectorTile_new_four P z x y (JsObject options) Hz Hx Hy).
  rewrite (VectorTile_options_object _ _ _ options ts bs Hts Hbs).
  destruct (Z.leb_spec ts 0); [lia|]. cbn [bind].
  assert (Hu : (if Has options "tile_size" then to_uint32 ts else ts) = ts).
  { destruct (Has options "tile_size"); [|reflexivity].
    apply to_uint32_small. unfold int32_max in Hts32. lia. }
  rewrite Hu.
  assert (Hw : wrap32 (2 * bs) = 2 * bs + 2 ^ 32).
  { unfold wrap32. unfold int32_min in Hbs32.
    replace (2 * bs + 2 ^ 31) with (2 * bs + 2 ^ 32 + 2 ^ 31 + (-1) * 2 ^ 32)
      by lia.
    rewrite Z.mod_add by lia. rewrite Z.mod_small by lia. lia. }
  rewrite Hw.
  destruct (Z.leb_spec (ts + (2 * bs + 2 ^ 32)) 0);
    [unfold int32_min in Hbs32; lia | reflexivity].
Qed.

Lemma VectorTile_new_accepts_every_wrapped_buffer_witness :
  VectorTile_new Demo.pow2_saturating
    [JsNumber 1; JsNumber 1; JsNumber 0;
     JsObject [("tile_size", JsNumber 512);
               ("buffer_size", JsNumber (-2000000000))]]
  = Normal (merc_tile_new 1 0 1 512 (-2000000000)).
Proof.
  apply (proj1 (VectorTile_new_accepts_every_wrapped_buffer
                  Demo.pow2_saturating 1 1 0
                  [("tile_size", JsNumber 512);
                   ("buffer_size", JsNumber (-2000000000))]
                  512 (-2000000000)
                  ltac:(lia) ltac:(cbn; lia) ltac:(cbn; lia)
                  (or_intror (conj eq_refl
                     (ex_intro _ 512 (conj eq_refl eq_refl))))
                  (or_intror (conj eq_refl
                     (ex_intro _ (-2000000000) (conj eq_refl eq_refl))))
                  ltac:(lia) ltac:(lia))).
Defined.

(** ** More on the accessors *)

(** X7: a property assignment is all or nothing, and local: when the
    setter raises, the tile is what it was; when it succeeds, only the
    assigned field can have changed; the data of the tile is never
    touched. *)
Theorem assign_atomic_and_local (t : merc_tile) (a : assignment) :
  (forall e, snd (assign t a) = Some e -> fst (assign t a) = t)
  /\ buffer_ (fst (assign t a)) = buffer_ t
  /\ (match a with Assign_x _ => True
      | _ => x_ (fst (assign t a)) = x_ t end)
  /\ (match a with Assign_y _ => True
      | _ => y_ (fst (assign t a)) = y_ t end)
  /\ (match a with Assign_z _ => True
      | _ => z_ (fst (assign t a)) = z_ t end)
  /\ (match a with Assign_tileSize _ => True
      | _ => tile_size_ (fst (assign t a)) = tile_size_ t end)
  /\ (match a with Assign_bufferSize _ => True
      | _ => buffer_size_ (fst (assign t a)) = buffer_size_ t end).
Proof.
  destruct a as [v|v|v|v|v]; cbn [assign];
    unfold set_tile_x, set_tile_y, set_tile_z, set_tile_size, set_buffer_size;
    destruct v; cbn [fst snd]; repeat split; try discriminate; try reflexivity;
    match goal with
    | |- context [if ?c then _ else _] => destruct c
    end; cbn [fst snd]; intros; try discriminate; reflexivity.
Qed.

(** X8: whether an assignment to [x], [y], [z] or [tileSize] is accepted
    depends on the assigned value alone, and for [bufferSize] on the value
    and the tile size alone: never on the zoom, the address or the data of
    the tile. *)
Theorem assign_verdict_local (t t' : merc_tile) (a : assignment) :
  tile_size_ t = tile_size_ t' \/ (forall v, a <> Assign_bufferSize v) ->
  snd (assign t a) = snd (assign t' a).
Proof.
  intros H.
  destruct a as [v|v|v|v|v]; cbn [assign];
    unfold set_tile_x, set_tile_y, set_tile_z, set_tile_size, set_buffer_size;
    destruct v; cbn [fst snd]; try reflexivity;
    try (match goal with
         | |- context [if ?c then _ else _] => destruct c
         end; reflexivity).
  destruct H as [H | H]; [|now elim (H (JsNumber n))].
  rewrite H.
  destruct (wrap32 (wrap32 (tile_size_ t') + wrap32 (2 * Int32Value n)) <=? 0);
    reflexivity.
Qed.

Lemma assign_verdict_local_witness :
  snd (assign (merc_tile_new 0 0 0 4096 128) (Assign_x (JsNumber 7)))
  = snd (assign (merc_tile_new 9 9 20 256 0) (Assign_x (JsNumber 7))).
Proof.
  apply assign_verdict_local. right. intros v E. discriminate E.
Defined.

(** X9: read after write.  A Number in [0, 2^31) assigned to [x], [y] or
    [z], and one in (0, 2^31) assigned to [tileSize], is accepted and is
    what the getter then returns; whenever an assignment to [bufferSize]
    is accepted, the getter returns the 32-bit value of the Number. *)
Theorem write_then_read (R : Z -> Z) (t : merc_tile) (n : Z) :
  (0 <= n <= int32_max ->
   set_tile_x t (JsNumber n) = (set_x t n, None)
   /\ get_tile_x R (set_x t n) = JsNumber n
   /\ set_tile_y t (JsNumber n) = (set_y t n, None)
   /\ get_tile_y R (set_y t n) = JsNumber n
   /\ set_tile_z t (JsNumber n) = (set_z t n, None)
   /\ get_tile_z R (set_z t n) = JsNumber n)
  /\ (0 < n <= int32_max ->
      set_tile_size t (JsNumber n) = (set_tile_size_ t n, None)
      /\ get_tile_size R (set_tile_size_ t n) = JsNumber n)
  /\ (forall t', set_buffer_size t (JsNumber n) = (t', None) ->
      get_buffer_size R t' = JsNumber (Int32Value n)).
Proof.
  assert (Hnum : forall v, Z.abs v <= 2 ^ 31 -> Number_New R v = JsNumber v).
  { intros v Hv. unfold Number_New.
    destruct (Z.leb_spec (Z.abs v) (2 ^ 53)); [reflexivity | lia]. }
  split; [|split].
  - intros Hn.
    assert (Hi : Int32Value n = n)
      by (apply wrap32_small; unfold int32_min, int32_max in *; lia).
    unfold set_tile_x, set_tile_y, set_tile_z, get_tile_x, get_tile_y,
      get_tile_z. rewrite Hi.
    destruct (Z.ltb_spec n 0); [lia|]. cbn [x_ y_ z_ set_x set_y set_z].
    rewrite Hnum by (unfold int32_max in Hn; lia). repeat split.
  - intros Hn.
    assert (Hi : Int32Value n = n)
      by (apply wrap32_small; unfold int32_min, int32_max in *; lia).
    unfold set_tile_size, get_tile_size. rewrite Hi.
    destruct (Z.leb_spec n 0); [lia|].
    rewrite to_uint32_small by (unfold int32_max in Hn; lia).
    cbn [tile_size_ set_tile_size_].
    rewrite Hnum by (unfold int32_max in Hn; lia). split; reflexivity.
  - intros t'. unfold set_buffer_size, get_buffer_size.
    destruct (wrap32 _ <=? 0); [discriminate|].
    intros [= <-]. cbn [buffer_size_ set_buffer_size_].
    apply Hnum. pose proof (wrap32_range n).
    unfold Int32Value, int32_min, int32_max in *. lia.
Qed.

Lemma write_then_read_witness :
  get_tile_x (fun v => v) (set_x (merc_tile_new 0 0 0 4096 128) 7)
  = JsNumber 7
  /\ get_tile_size (fun v => v) (set_tile_size_ (merc_tile_new 0 0 0 4096 128) 256)
     = JsNumber 256
  /\ get_buffer_size (fun v => v) (set_buffer_size_ (merc_tile_new 0 0 0 4096 128) 64)
     = JsNumber 64.
Proof.
  split; [|split].
  - apply (proj1 (write_then_read (fun v => v)
                    (merc_tile_new 0 0 0 4096 128) 7)).
    unfold int32_max. lia.
  - apply (proj1 (proj2 (write_then_read (fun v => v)
                           (merc_tile_new 0 0 0 4096 128) 256))).
    unfold int32_max. lia.
  - apply (proj2 (proj2 (write_then_read (fun v => v)
                           (merc_tile_new 0 0 0 4096 128) 64))).
    reflexivity.
Defined.

(** X10: read after construction.  For an address with [z <= 53] and
    [0 <= x, y < 2^z], a tile size in (0, 2^31) and a buffer size in
    [-2^30, 2^30) with [tile_size + 2*buffer_size > 0], the constructor
    builds a tile whose five getters return the five numbers given. *)
Theorem construct_then_read (P R : Z -> Z) (z x y ts bs : Z) :
  0 <= z <= 53 -> 0 <= x < 2 ^ z -> 0 <= y < 2 ^ z ->
  0 < ts <= int32_max -> - 2 ^ 30 <= bs < 2 ^ 30 -> 0 < ts + 2 * bs ->
  exists t,
    VectorTile_new P
      [JsNumber z; JsNumber x; JsNumber y;
       JsObject [("tile_size", JsNumber ts); ("buffer_size", JsNumber bs)]]
    = Normal t
    /\ get_tile_z R t = JsNumber z
    /\ get_tile_x R t = JsNumber x
    /\ get_tile_y R t = JsNumber y
    /\ get_tile_size R t = JsNumber ts
    /\ get_buffer_size R t = JsNumber bs.
Proof.
  intros Hz Hx Hy Hts Hbs Hsum.
  assert (Hp : 0 < 2 ^ z <= 2 ^ 53).
  { split; [apply Z.pow_pos_nonneg; lia | apply Z.pow_le_mono_r; lia]. }
  exists (merc_tile_new x y z ts bs).
  assert (Hnum : forall v, Z.abs v <= 2 ^ 53 -> Number_New R v = JsNumber v).
  { intros v Hv. unfold Number_New.
    destruct (Z.leb_spec (Z.abs v) (2 ^ 53)); [reflexivity | lia]. }
  unfold get_tile_x, get_tile_y, get_tile_z, get_tile_size, get_buffer_size.
  cbn [x_ y_ z_ tile_size_ buffer_size_ merc_tile_new].
  rewrite !Hnum by (unfold int32_max in *; lia).
  split; [|repeat split].
  rewrite VectorTile_new_four by lia.
  assert (Hits : Int32Value ts = ts)
    by (apply wrap32_small; unfold int32_min, int32_max in *; lia).
  assert (Hibs : Int32Value bs = bs)
    by (apply wrap32_small; unfold int32_min, int32_max in *; lia).
  rewrite (VectorTile_options_object _ _ _ _ ts bs).
  - destruct (Z.leb_spec ts 0); [lia|]. cbn [bind Has existsb fst].
    change (String.eqb "tile_size" "tile_size") with true. cbn [orb].
    rewrite to_uint32_small by (unfold int32_max in *; lia).
    rewrite wrap32_small by (unfold int32_min, int32_max in *; lia).
    destruct (Z.leb_spec (ts + 2 * bs) 0); [lia | reflexivity].
  - right. split; [reflexivity|]. exists ts. split; [reflexivity|].
    now rewrite Hits.
  - right. split; [reflexivity|]. exists bs. split; [reflexivity|].
    now rewrite Hibs.
Qed.

Lemma construct_then_read_witness :
  exists t,
    VectorTile_new Demo.pow2_saturating
      [JsNumber 9; JsNumber 112; JsNumber 195;
       JsObject [("tile_size", JsNumber 512); ("buffer_size", JsNumber (-16))]]
    = Normal t
    /\ get_tile_z (fun v => v) t = JsNumber 9
    /\ get_tile_x (fun v => v) t = JsNumber 112
    /\ get_tile_y (fun v => v) t = JsNumber 195
    /\ get_tile_size (fun v => v) t = JsNumber 512
    /\ get_buffer_size (fun v => v) t = JsNumber (-16).
Proof.
  apply (construct_then_read Demo.pow2_saturating (fun v => v)
           9 112 195 512 (-16));
    unfold int32_max; cbn; lia.
Defined.

(** X11: the check of [set_buffer_size] on a tile size that is a positive
    [int] and a Number in [-2^30, 2^30): the assignment is accepted, and
    stored, exactly when [0 < tile_size + 2*n <= INT_MAX]; a sum that is
    not positive and a sum above [INT_MAX] (which wraps) are both refused
    with "too large of a negative buffer for tilesize". *)
Theorem set_buffer_size_verdict (t : merc_tile) (n : Z) :
  0 < tile_size_ t <= int32_max -> - 2 ^ 30 <= n < 2 ^ 30 ->
  (0 < tile_size_ t + 2 * n <= int32_max ->
   set_buffer_size t (JsNumber n) = (set_buffer_size_ t n, None))
  /\ (tile_size_ t + 2 * n <= 0 \/ int32_max < tile_size_ t + 2 * n ->
      set_buffer_size t (JsNumber n)
      = (t, Some (Error "too large of a negative buffer for tilesize"))).
Proof.
  intros Hts Hn. unfold set_buffer_size.
  assert (Hi : Int32Value n = n)
    by (apply wrap32_small; unfold int32_min, int32_max in *; lia).
  rewrite Hi.
  rewrite (wrap32_small (tile_size_ t))
    by (unfold int32_min, int32_max in *; lia).
  rewrite (wrap32_small (2 * n)) by (unfold int32_min, int32_max in *; lia).
  split.
  - intros Hs. rewrite wrap32_small by (unfold int32_min, int32_max in *; lia).
    destruct (Z.leb_spec (tile_size_ t + 2 * n) 0); [lia | reflexivity].
  - intros [Hs | Hs].
    + rewrite wrap32_small by (unfold int32_min, int32_max in *; lia).
      destruct (Z.leb_spec (tile_size_ t + 2 * n) 0); [reflexivity | lia].
    + assert (Hw : wrap32 (tile_size_ t + 2 * n)
                   = tile_size_ t + 2 * n - 2 ^ 32).
      { unfold wrap32. unfold int32_max in *.
        replace (tile_size_ t + 2 * n + 2 ^ 31)
          with (tile_size_ t + 2 * n - 2 ^ 31 + 1 * 2 ^ 32) by lia.
        rewrite Z.mod_add by lia. rewrite Z.mod_small by lia. lia. }
      rewrite Hw.
      destruct (Z.leb_spec (tile_size_ t + 2 * n - 2 ^ 32) 0);
        [reflexivity | unfold int32_max in *; lia].
Qed.

Lemma set_buffer_size_verdict_witness :
  set_buffer_size (merc_tile_new 0 0 0 256 0) (JsNumber (-128))
  = (merc_tile_new 0 0 0 256 0,
     Some (Error "too large of a negative buffer for tilesize"))
  /\ set_buffer_size (merc_tile_new 0 0 0 2147483647 0) (JsNumber 1)
     = (merc_tile_new 0 0 0 2147483647 0,
        Some (Error "too large of a negative buffer for tilesize"))
  /\ set_buffer_size (merc_tile_new 0 0 0 256 0) (JsNumber (-127))
     = (merc_tile_new 0 0 0 256 (-127), None).
Proof.
  split; [|split].
  - apply (proj2 (set_buffer_size_verdict (merc_tile_new 0 0 0 256 0) (-128)
                    ltac:(unfold int32_max; cbn; lia) ltac:(lia))).
    left. cbn. lia.
  - apply (proj2 (set_buffer_size_verdict
                    (merc_tile_new 0 0 0 2147483647 0) 1
                    ltac:(unfold int32_max; cbn; lia) ltac:(lia))).
    right. unfold int32_max. cbn. lia.
  - apply (proj1 (set_buffer_size_verdict (merc_tile_new 0 0 0 256 0) (-127)
                    ltac:(unfold int32_max; cbn; lia) ltac:(lia))).
    unfold int32_max. cbn. lia.
Defined.

(** ** Scripts of calls on a tile object *)

Lemma assign_keeps_buffer (t : merc_tile) (a : assignment) :
  buffer_ (fst (assign t a)) = buffer_ t.
Proof.
  destruct a as [v|v|v|v|v]; cbn [assign];
    unfold set_tile_x, set_tile_y, set_tile_z, set_tile_size, set_buffer_size;
    destruct v; try reflexivity;
    match goal with
    | |- context [if ?c then _ else _] => destruct c
    end; reflexivity.
Qed.

Lemma assign_keeps_fields (t : merc_tile) (a : assignment) :
  tile_fields_ok t -> tile_fields_ok (fst (assign t a)).
Proof.
  intros Hok. pose proof Hok as [Hx [Hy [Hz [Hts Hbs]]]].
  destruct a as [v|v|v|v|v]; cbn [assign];
    unfold set_tile_x, set_tile_y, set_tile_z, set_tile_size, set_buffer_size;
    destruct v; try exact Hok.
  - destruct (Z.ltb_spec (Int32Value n) 0); [exact Hok|].
    unfold tile_fields_ok;
      cbn [fst x_ y_ z_ tile_size_ buffer_size_ set_x set_y set_z];
      repeat split; lia.
  - destruct (Z.ltb_spec (Int32Value n) 0); [exact Hok|].
    unfold tile_fields_ok;
      cbn [fst x_ y_ z_ tile_size_ buffer_size_ set_x set_y set_z];
      repeat split; lia.
  - destruct (Z.ltb_spec (Int32Value n) 0); [exact Hok|].
    unfold tile_fields_ok;
      cbn [fst x_ y_ z_ tile_size_ buffer_size_ set_x set_y set_z];
      repeat split; lia.
  - destruct (Z.leb_spec (Int32Value n) 0); [exact Hok|].
    pose proof (wrap32_range n) as Hr. unfold Int32Value in *.
    rewrite to_uint32_small by (unfold int32_max in Hr; lia).
    unfold tile_fields_ok; cbn [fst x_ y_ z_ tile_size_ buffer_size_
                                   set_tile_size_].
    repeat split; lia.
  - destruct (wrap32 _ <=? 0); [exact Hok|].
    pose proof (wrap32_range n) as Hr. unfold Int32Value.
    unfold tile_fields_ok; cbn [fst x_ y_ z_ tile_size_ buffer_size_
                                   set_buffer_size_].
    repeat split; lia.
Qed.

Section Scripts.

Context {coord value : Type}.
Variable R : Z -> Z.
Variable M : mapnik_api coord value.

Lemma invoke_tile (t : merc_tile) (i : invocation) :
  snd (invoke R M t i) = t
  \/ exists a, i = Write a /\ snd (invoke R M t i) = fst (assign t a).
Proof.
  destruct i; try (left; reflexivity).
  right. exists a. split; [reflexivity|].
  cbn [invoke]. destruct (assign t a). reflexivity.
Qed.

(** X12: no call modelled here changes the data of a tile: after any
    script of method calls, property reads and property assignments, the
    buffer is the one the tile had.  In particular [clearSync] and [clear]
    do not empty it, and [compositeSync], [addImageSync] and the like add
    nothing. *)
Theorem run_never_changes_data (t : merc_tile) (script : list invocation) :
  buffer_ (run R M t script) = buffer_ t.
Proof.
  unfold run. revert t.
  induction script as [|i script IH]; intros t; cbn [fold_left].
  - reflexivity.
  - rewrite IH.
    destruct (invoke_tile t i) as [-> | [a [_ ->]]];
      [reflexivity | apply assign_keeps_buffer].
Qed.

(** X13: a non-negative address, a tile size that is a positive [int] and
    a buffer size that is an [int] are kept by every script of calls. *)
Theorem run_keeps_fields (t : merc_tile) (script : list invocation) :
  tile_fields_ok t -> tile_fields_ok (run R M t script).
Proof.
  unfold run. revert t.
  induction script as [|i script IH]; intros t Hok; cbn [fold_left].
  - exact Hok.
  - apply IH.
    destruct (invoke_tile t i) as [-> | [a [_ ->]]];
      [exact Hok | now apply assign_keeps_fields].
Qed.

End Scripts.

Lemma run_keeps_fields_witness :
  tile_fields_ok
    (run (fun v => v) Demo.api (merc_tile_new 1 0 1 4096 128)
       [Write (Assign_x (JsNumber 40)); Call_clearSync [];
        Write (Assign_tileSize (JsNumber (-3)));
        Write (Assign_bufferSize (JsNumber (-4000)))]).
Proof.
  apply run_keeps_fields.
  unfold tile_fields_ok, int32_min, int32_max. cbn. lia.
Defined.

(** ** The options of the validity report *)

Lemma Length_ge_1 (a0 : js_value) (rest : list js_value) :
  (1 <=? Length (a0 :: rest)) = true.
Proof.
  unfold Length. destruct (Z.leb_spec 1 (Z.of_nat (List.length (a0 :: rest))))
    as [H|H]; [reflexivity|]. cbn [List.length] in H. lia.
Qed.

Lemma bool_option_ok (options : list (string * js_value))
  (key what : string) :
  flag_ok options key ->
  bool_option options key what false = Normal (flag_value options key).
Proof.
  unfold bool_option, flag_value. intros [H | [b H]].
  - now rewrite H.
  - rewrite H. destruct (Has options key); reflexivity.
Qed.

Lemma bool_option_bad (options : list (string * js_value))
  (key what : string) :
  Has options key = true -> (forall b, Get options key <> JsBoolean b) ->
  bool_option options key what false = Throw (Error what).
Proof.
  unfold bool_option. intros -> Hnb.
  destruct (Get options key); try reflexivity. now elim (Hnb b).
Qed.

Section ValidityOptions.

Context {coord value : Type}.
Variable M : mapnik_api coord value.

(** X14: [reportGeometryValiditySync] checks its options before it looks
    at the tile.  A first argument that is not an object is refused; so is
    the first of [split_multi_features], [lat_lon], [web_merc], in this
    order, that is present and not a Boolean; each with its own Error,
    whatever the tile holds. *)
Theorem reportGeometryValiditySync_option_errors (tile_ : merc_tile)
  (a0 : js_value) (rest : list js_value) :
  (IsObject a0 = false ->
   reportGeometryValiditySync M tile_ (a0 :: rest)
   = Throw (Error "The first argument must be an object"))
  /\ (IsObject a0 = true ->
      (Has (props a0) "split_multi_features" = true ->
       (forall b, Get (props a0) "split_multi_features" <> JsBoolean b) ->
       reportGeometryValiditySync M tile_ (a0 :: rest)
       = Throw (Error "option 'split_multi_features' must be a boolean"))
      /\ (flag_ok (props a0) "split_multi_features" ->
          Has (props a0) "lat_lon" = true ->
          (forall b, Get (props a0) "lat_lon" <> JsBoolean b) ->
          reportGeometryValiditySync M tile_ (a0 :: rest)
          = Throw (Error "option 'lat_lon' must be a boolean"))
      /\ (flag_ok (props a0) "split_multi_features" ->
          flag_ok (props a0) "lat_lon" ->
          Has (props a0) "web_merc" = true ->
          (forall b, Get (props a0) "web_merc" <> JsBoolean b) ->
          reportGeometryValiditySync M tile_ (a0 :: rest)
          = Throw (Error "option 'web_merc' must be a boolean"))).
Proof.
  unfold reportGeometryValiditySync. rewrite Length_ge_1.
  unfold arg. cbn [nth].
  split.
  - intros ->. reflexivity.
  - intros ->. cbn [negb]. split; [|split].
    + intros Hh Hnb. now rewrite bool_option_bad.
    + intros Hs Hh Hnb. rewrite (bool_option_ok _ _ _ Hs). cbn [bind].
      now rewrite bool_option_bad.
    + intros Hs Hl Hh Hnb.
      rewrite (bool_option_ok _ _ _ Hs), (bool_option_ok _ _ _ Hl).
      cbn [bind]. now rewrite bool_option_bad.
Qed.

(** X15: with well-typed options the report is the check of the tile
    under the three flags, each [false] when absent: without arguments,
    and with an object that has none of the three keys, the check runs
    with all flags off; arguments after the first and other keys are not
    read. *)
Theorem reportGeometryValiditySync_flags (tile_ : merc_tile)
  (a0 : js_value) (rest : list js_value) :
  (IsObject a0 = true ->
   flag_ok (props a0) "split_multi_features" ->
   flag_ok (props a0) "lat_lon" ->
   flag_ok (props a0) "web_merc" ->
   reportGeometryValiditySync M tile_ (a0 :: rest)
   = (errors <- vector_tile_not_valid M tile_ []
                  (flag_value (props a0) "split_multi_features")
                  (flag_value (props a0) "lat_lon")
                  (flag_value (props a0) "web_merc") ;;
      Normal (make_not_valid_array errors)))
  /\ reportGeometryValiditySync M tile_ []
     = (errors <- vector_tile_not_valid M tile_ [] false false false ;;
        Normal (make_not_valid_array errors)).
Proof.
  split; [|reflexivity].
  intros Ho Hs Hl Hw.
  unfold reportGeometryValiditySync. rewrite Length_ge_1.
  unfold arg. cbn [nth]. rewrite Ho. cbn [negb].
  rewrite (bool_option_ok _ _ _ Hs), (bool_option_ok _ _ _ Hl),
    (bool_option_ok _ _ _ Hw).
  reflexivity.
Qed.

End ValidityOptions.

Lemma reportGeometryValiditySync_option_errors_witness :
  reportGeometryValiditySync Demo.api
    (Demo.tile_with 0 0 0 [T_LAYERS Demo.parcels]) [JsNumber 1]
  = Throw (Error "The first argument must be an object")
  /\ reportGeometryValiditySync Demo.api
       (Demo.tile_with 0 0 0 [T_LAYERS Demo.parcels])
       [JsObject [("web_merc", JsNumber 1); ("lat_lon", JsString "yes")]]
     = Throw (Error "option 'lat_lon' must be a boolean").
Proof.
  split.
  - apply (proj1 (reportGeometryValiditySync_option_errors Demo.api
                    (Demo.tile_with 0 0 0 [T_LAYERS Demo.parcels])
                    (JsNumber 1) [])).
    reflexivity.
  - apply (proj1 (proj2 (proj2 (reportGeometryValiditySync_option_errors
                                  Demo.api
                                  (Demo.tile_with 0 0 0 [T_LAYERS Demo.parcels])
                                  (JsObject [("web_merc", JsNumber 1);
                                             ("lat_lon", JsString "yes")])
                                  []) eq_refl))).
    + left. reflexivity.
    + reflexivity.
    + intros b E. discriminate E.
Defined.

Lemma reportGeometryValiditySync_flags_witness :
  reportGeometryValiditySync Demo.api
    (Demo.tile_with 0 0 0 [T_LAYERS Demo.parcels])
    [JsObject [("web_merc", JsBoolean true); ("verbose", JsNumber 1)];
     JsNull]
  = (errors <- vector_tile_not_valid Demo.api
                 (Demo.tile_with 0 0 0 [T_LAYERS Demo.parcels]) []
                 false false true ;;
     Normal (make_not_valid_array errors)).
Proof.
  apply (proj1 (reportGeometryValiditySync_flags Demo.api
                  (Demo.tile_with 0 0 0 [T_LAYERS Demo.parcels])
                  (JsObject [("web_merc", JsBoolean true);
                             ("verbose", JsNumber 1)])
                  [JsNull])).
  - reflexivity.
  - left. reflexivity.
  - left. reflexivity.
  - right. exists true. reflexivity.
Defined.

(** ** The validity check as a whole *)

Section ValidityChain.

Context {coord value : Type}.
Variable M : mapnik_api coord value.

(** A property of runs that holds of a run that returns at once, passes
    through sequencing and holds of the reporting block holds of the whole
    check. *)
Variable Q : completion (list not_valid_feature) -> Prop.
Hypothesis Q_normal : forall errors, Q (Normal errors).
Hypothesis Q_bind : forall m k, Q m -> (forall a, Q (k a)) -> Q (bind m k).
Hypothesis Q_emplace : forall errors (feature : feature_impl coord value)
  name msg g, Q (emplace_invalid M errors feature name msg g).









End ValidityChain.

Section ValidityOutcome.

Context {coord value : Type}.
Variable M : mapnik_api coord value.

(** X16: [lat_lon] takes precedence: when it is set, the check is the
    same whether [web_merc] is set or not. *)
Theorem lat_lon_overrides_web_merc (t : merc_tile)
  (errors : list not_valid_feature) (split web_merc : bool) :
  vector_tile_not_valid M t errors split true web_merc
  = vector_tile_not_valid M t errors split true (negb web_merc).
Proof.
  unfold vector_tile_not_valid. revert errors.
  induction (buffer_ t) as [|[l|tag] buf IH]; intros errors;
    cbn [not_valid_layers].
  - reflexivity.
  - assert (E : layer_not_valid M l (x_ t) (y_ t) (z_ t) errors split true
                                web_merc
                = layer_not_valid M l (x_ t) (y_ t) (z_ t) errors split true
                                  (negb web_merc)).
    { unfold layer_not_valid. now rewrite !orb_true_r. }
    rewrite E. clear E.
    destruct (layer_not_valid _ _ _ _ _ _ _ _ _); cbn [bind];
      [apply IH | reflexivity].
  - apply IH.
Qed.



End ValidityOutcome.



(** ** What the records of the validity check name *)

Lemma scan_feature_has_geom (m : feature_msg) (st : feature_scan) :
  has_geom (scan_feature m st) = true ->
  has_geom st = true \/ exists g, In (F_GEOMETRY g) m.
Proof.
  revert st. induction m as [|f m IH]; intros st; cbn [scan_feature].
  - now left.
  - destruct f; intros H; apply IH in H; cbn [has_geom] in H;
      destruct H as [H | [g H]];
      try (now left); try (right; exists g; now right).
    right. exists cmds. now left.
Qed.

Lemma scan_feature_has_geom_type (m : feature_msg) (st : feature_scan) :
  has_geom_type (scan_feature m st) = true ->
  has_geom_type st = true \/ exists e, In (F_TYPE e) m.
Proof.
  revert st. induction m as [|f m IH]; intros st; cbn [scan_feature].
  - now left.
  - destruct f; intros H; apply IH in H; cbn [has_geom_type] in H;
      destruct H as [H | [g H]];
      try (now left); try (right; exists g; now right).
    right. exists geom_type. now left.
Qed.

Lemma scan_layer_features (l : layer_msg) (st : layer_scan)
  (m : feature_msg) :
  In m (layer_features (scan_layer l st)) ->
  In m (layer_features st) \/ In (L_FEATURES m) l.
Proof.
  revert st. induction l as [|f l IH]; intros st; cbn [scan_layer].
  - now left.
  - destruct f; intros H; apply IH in H; cbn [layer_features] in H;
      destruct H as [H | H];
      try (now left); try (right; now right).
    apply in_app_or in H. destruct H as [H | [-> | []]];
      [now left | right; now left].
Qed.

Section ValidityRecords.

Context {coord value : Type}.
Variable M : mapnik_api coord value.

Lemma check_feature_msg_skips errors name version split m :
  lacks_geometry_or_type m ->
  check_feature_msg M errors name version split m = Normal errors.
Proof.
  intros Hl. unfold check_feature_msg.
  destruct (has_geom (scan_feature m feature_scan_init)) eqn:Eg;
    [|reflexivity].
  destruct (has_geom_type (scan_feature m feature_scan_init)) eqn:Et;
    [|reflexivity].
  exfalso.
  apply scan_feature_has_geom in Eg. apply scan_feature_has_geom_type in Et.
  destruct Eg as [Eg | [g Hg]]; [discriminate Eg|].
  destruct Et as [Et | [e He]]; [discriminate Et|].
  destruct Hl as [Hl | Hl]; [now apply (Hl g) | now apply (Hl e)].
Qed.

(** X19: a feature message without a geometry field, or without a type
    field, is passed over: on default options a tile all of whose feature
    messages are such gives no record and raises nothing, whatever the
    geometry decoder and the validity tests would answer. *)
Theorem features_without_geometry_are_skipped (t : merc_tile)
  (errors : list not_valid_feature) (split : bool) :
  (forall l m, In l (layers (buffer_ t)) -> In (L_FEATURES m) l ->
               lacks_geometry_or_type m) ->
  vector_tile_not_valid M t errors split false false = Normal errors.
Proof.
  unfold vector_tile_not_valid. revert errors.
  induction (buffer_ t) as [|[l|tag] buf IH]; intros errors Hall;
    cbn [not_valid_layers layers] in *.
  - reflexivity.
  - assert (E : layer_not_valid M l (x_ t) (y_ t) (z_ t) errors split
                                false false = Normal errors).
    { unfold layer_not_valid. cbn [orb].
      assert (Hm : forall m,
                 In m (layer_features (scan_layer l (mk_layer_scan [] 1 ""))) ->
                 lacks_geometry_or_type m).
      { intros m Hin. apply scan_layer_features in Hin.
        destruct Hin as [[] | Hin]. apply (Hall l m); [now left | exact Hin]. }
      revert Hm.
      generalize (layer_features (scan_layer l (mk_layer_scan [] 1 ""))).
      intros msgs. induction msgs as [|m msgs IHm]; intros Hm;
        cbn [check_feature_msgs]; [reflexivity|].
      rewrite check_feature_msg_skips by (apply Hm; now left).
      cbn [bind]. apply IHm. intros m' Hin. apply Hm. now right. }
    rewrite E. cbn [bind]. apply IH.
    intros l' m Hin. apply Hall. now right.
  - apply IH. exact Hall.
Qed.



End ValidityRecords.

Lemma features_without_geometry_are_skipped_witness :
  vector_tile_not_valid Demo.api
    (Demo.tile_with 0 0 0
       [T_LAYERS [L_NAME "parcels"; L_FEATURES [F_ID 3; F_TYPE 3]]])
    [] false false false
  = Normal [].
Proof.
  apply features_without_geometry_are_skipped.
  intros l m [<- | []] [E | [E | []]]; try discriminate E.
  injection E as <-. left. intros g [E | [E | []]]; discriminate E.
Defined.



(** ** What the visitor does with a geometry *)

Section VisitorFacts.

Context {coord value : Type}.
Variable M : mapnik_api coord value.

(** X22: [split_multi_features] matters only through multi-line-strings
    and multi-polygons: on a geometry that holds none, also inside
    collections, the visitor does the same with the flag on and off. *)
Theorem split_only_affects_multi (feature : feature_impl coord value)
  (name : string) (geom : geometry coord) :
  splittable geom = false ->
  forall errors,
    visitor_geom_valid M errors feature name true geom
    = visitor_geom_valid M errors feature name false geom.
Proof.
  induction geom using geometry_nested_ind; intros Hs errors;
    cbn [visitor_geom_valid]; try reflexivity; try discriminate Hs.
  cbn [splittable] in Hs. revert errors.
  induction H as [|g gs Hg Hgs IH]; intros errors; [reflexivity|].
  apply orb_false_iff in Hs. destruct Hs as [Hs1 Hs2].
  rewrite (Hg Hs1).
  destruct (visitor_geom_valid M errors feature name false g);
    [apply (IH Hs2) | reflexivity].
Qed.

Lemma check_parts_all_pass {P : Type} (is_valid : P -> bool * string) inj
  (feature : feature_impl coord value) name (parts : list P) errors :
  forallb (fun p => fst (is_valid p)) parts = true ->
  check_parts M is_valid inj errors feature name parts = Normal errors.
Proof.
  revert errors. induction parts as [|p parts IH]; intros errors;
    cbn [check_parts forallb]; [reflexivity|].
  intros H. apply andb_true_iff in H. destruct H as [H1 H2].
  destruct (is_valid p) as [ok msg]. cbn [fst] in H1. subst ok.
  cbn [negb bind]. now apply IH.
Qed.

Lemma check_parts_some_fails {P : Type} (is_valid : P -> bool * string) inj
  (feature : feature_impl coord value) name (parts : list P) errors errors' :
  forallb (fun p => fst (is_valid p)) parts = false ->
  check_parts M is_valid inj errors feature name parts = Normal errors' ->
  (List.length errors < List.length errors')%nat.
Proof.
  revert errors. induction parts as [|p parts IH]; intros errors;
    cbn [check_parts forallb]; [discriminate|].
  destruct (is_valid p) as [ok msg]. cbn [fst]. destruct ok; cbn [negb andb].
  - cbn [bind]. apply IH.
  - intros _. rewrite emplace_invalid_spec.
    destruct (to_geojson M _); cbn [bind]; [|discriminate].
    intros Hrun. apply check_parts_reports in Hrun.
    destruct Hrun as [new [-> _]]. rewrite !List.length_app. cbn. lia.
Qed.

Lemma check_one_fails {G : Type} (is_valid : G -> bool * string) inj
  (feature : feature_impl coord value) name (geom : G) errors errors' :
  fst (is_valid geom) = false ->
  (check_whole M is_valid inj errors feature name geom = Normal errors' ->
   (List.length errors < List.length errors')%nat)
  /\ (check_multi M is_valid inj errors feature name geom = Normal errors' ->
      (List.length errors < List.length errors')%nat).
Proof.
  unfold check_whole, check_multi.
  destruct (is_valid geom) as [ok msg]. cbn [fst]. intros ->. cbn [negb].
  rewrite emplace_invalid_spec.
  destruct (to_geojson M _); split; try discriminate;
    intros [= <-]; rewrite List.length_app; cbn; lia.
Qed.

Lemma check_one_passes {G : Type} (is_valid : G -> bool * string) inj
  (feature : feature_impl coord value) name (geom : G) errors :
  fst (is_valid geom) = true ->
  check_whole M is_valid inj errors feature name geom = Normal errors
  /\ check_multi M is_valid inj errors feature name geom = Normal errors.
Proof.
  unfold check_whole, check_multi.
  destruct (is_valid geom) as [ok msg]. cbn [fst]. intros ->.
  split; reflexivity.
Qed.

(** X23: the visitor adds a record exactly when one of its tests fails.
    If every test on the geometry succeeds, it returns the list of records
    as it was, without calling the GeoJSON writer; if one fails and the
    visitor returns, the list has grown. *)
Theorem visitor_reports_iff_a_test_fails (feature : feature_impl coord value)
  (name : string) (split : bool) (geom : geometry coord) :
  forall errors,
    (passes M split geom = true ->
     visitor_geom_valid M errors feature name split geom = Normal errors)
    /\ (passes M split geom = false ->
        forall errors',
          visitor_geom_valid M errors feature name split geom
          = Normal errors' ->
          (List.length errors < List.length errors')%nat).
Proof.
  induction geom using geometry_nested_ind; intros errors;
    cbn [visitor_geom_valid passes].
  - split; [reflexivity | discriminate].
  - split; intros Hp; [now apply check_one_passes|].
    intros errors'. now apply check_one_fails.
  - split; intros Hp; [now apply check_one_passes|].
    intros errors'. now apply check_one_fails.
  - split; intros Hp; [now apply check_one_passes|].
    intros errors'. now apply check_one_fails.
  - split; intros Hp; [now apply check_one_passes|].
    intros errors'. now apply check_one_fails.
  - destruct split.
    + split; intros Hp; [now apply check_parts_all_pass|].
      intros errors'. now apply check_parts_some_fails.
    + split; intros Hp; [now apply check_one_passes|].
      intros errors'. now apply check_one_fails.
  - destruct split.
    + split; intros Hp; [now apply check_parts_all_pass|].
      intros errors'. now apply check_parts_some_fails.
    + split; intros Hp; [now apply check_one_passes|].
      intros errors'. now apply check_one_fails.
  - revert errors. induction H as [|g gs Hg Hgs IH]; intros errors.
    + split; [reflexivity | discriminate].
    + destruct (Hg errors) as [Hg1 Hg2]. split.
      * intros Hp. apply andb_true_iff in Hp. destruct Hp as [Hp1 Hp2].
        rewrite (Hg1 Hp1). now apply IH.
      * intros Hp errors'.
        destruct (visitor_geom_valid M errors feature name split g)
          as [mid|e] eqn:E; [|discriminate].
        intros Hrun.
        destruct (passes M split g) eqn:Ep.
        -- specialize (Hg1 eq_refl). injection Hg1 as ->.
           cbn [andb] in Hp. now apply (proj2 (IH errors) Hp).
        -- specialize (Hg2 eq_refl mid eq_refl).
           assert (Hmono : (List.length mid <= List.length errors')%nat).
           { assert (Hc : visitor_geom_valid M mid feature name split
                            (geom_collection gs) = Normal errors')
               by exact Hrun.
             apply visitor_geom_valid_reports in Hc.
             destruct Hc as [new [-> _]]. rewrite List.length_app. lia. }
           lia.
Qed.

End VisitorFacts.

Lemma split_only_affects_multi_witness :
  visitor_geom_valid Demo.api [] (feature_factory_create [] 4) "a" true
    (geom_collection [geom_line_string [mk_point 1 1]; geom_polygon []])
  = visitor_geom_valid Demo.api [] (feature_factory_create [] 4) "a" false
      (geom_collection [geom_line_string [mk_point 1 1]; geom_polygon []]).
Proof.
  apply split_only_affects_multi. reflexivity.
Defined.

Lemma visitor_reports_iff_a_test_fails_witness :
  visitor_geom_valid Demo.api_writer_fails []
    (feature_factory_create [] 4) "a" true
    (geom_multi_line_string
       [[mk_point 0 0; mk_point 1 1]; [mk_point 2 2; mk_point 3 3]])
  = Normal [].
Proof.
  apply (proj1 (visitor_reports_iff_a_test_fails Demo.api_writer_fails
                  (feature_factory_create [] 4) "a" true
                  (geom_multi_line_string
                     [[mk_point 0 0; mk_point 1 1];
                      [mk_point 2 2; mk_point 3 3]]) [])).
  reflexivity.
Defined.

(** ** Reports and the layout of the data *)

Lemma layers_app (b1 b2 : tile_buffer) :
  layers (b1 ++ b2) = layers b1 ++ layers b2.
Proof.
  induction b1 as [|[l|tag] b1 IH]; cbn [app layers]; [reflexivity| |exact IH].
  now rewrite IH.
Qed.

Lemma accumulates_normal : accumulates (fun errors => Normal errors).
Proof. intros errors. cbn [bind]. now rewrite app_nil_r. Qed.

Lemma accumulates_bind
  (f g : list not_valid_feature -> completion (list not_valid_feature)) :
  accumulates f -> accumulates g ->
  accumulates (fun errors => mid <- f errors ;; g mid).
Proof.
  intros Hf Hg errors. rewrite (Hf errors).
  destruct (f []) as [n1|e]; cbn [bind]; [|reflexivity].
  rewrite (Hg (errors ++ n1)). rewrite (Hg n1).
  destruct (g []) as [n2|e]; cbn [bind]; [|reflexivity].
  now rewrite app_assoc.
Qed.

Section Accumulation.

Context {coord value : Type}.
Variable M : mapnik_api coord value.

Lemma accumulates_emplace (feature : feature_impl coord value) name msg g :
  accumulates (fun errors => emplace_invalid M errors feature name msg g).
Proof.
  intros errors. rewrite !emplace_invalid_spec.
  destruct (to_geojson M _); reflexivity.
Qed.

Lemma accumulates_check_whole {G : Type} (is_valid : G -> bool * string) inj
  (feature : feature_impl coord value) name (geom : G) :
  accumulates
    (fun errors => check_whole M is_valid inj errors feature name geom).
Proof.
  unfold check_whole. destruct (is_valid geom) as [ok msg].
  destruct ok; cbn [negb]; [apply accumulates_normal | apply accumulates_emplace].
Qed.

Lemma accumulates_check_multi {G : Type} (is_valid : G -> bool * string) inj
  (feature : feature_impl coord value) name (geom : G) :
  accumulates
    (fun errors => check_multi M is_valid inj errors feature name geom).
Proof.
  unfold check_multi. destruct (is_valid geom) as [ok msg].
  destruct ok; cbn [negb]; [apply accumulates_normal | apply accumulates_emplace].
Qed.

Lemma accumulates_check_parts {P : Type} (is_valid : P -> bool * string) inj
  (feature : feature_impl coord value) name (parts : list P) :
  accumulates
    (fun errors => check_parts M is_valid inj errors feature name parts).
Proof.
  induction parts as [|p parts IH]; cbn [check_parts].
  - apply accumulates_normal.
  - destruct (is_valid p) as [ok msg].
    apply (accumulates_bind
             (fun errors =>
                if negb ok
                then emplace_invalid M errors feature name msg (inj p)
                else Normal errors)
             (fun errors =>
                check_parts M is_valid inj errors feature name parts));
      [|exact IH].
    destruct ok; cbn [negb];
      [apply accumulates_normal | apply accumulates_emplace].
Qed.

Lemma accumulates_visitor (feature : feature_impl coord value) name split
  (geom : geometry coord) :
  accumulates
    (fun errors => visitor_geom_valid M errors feature name split geom).
Proof.
  induction geom using geometry_nested_ind; cbn [visitor_geom_valid].
  - apply accumulates_normal.
  - apply accumulates_check_whole.
  - apply accumulates_check_whole.
  - apply accumulates_check_whole.
  - apply accumulates_check_whole.
  - destruct split;
      [apply accumulates_check_parts | apply accumulates_check_multi].
  - destruct split;
      [apply accumulates_check_parts | apply accumulates_check_multi].
  - induction H as [|g gs Hg Hgs IH].
    + apply accumulates_normal.
    + apply (accumulates_bind
               (fun errors =>
                  visitor_geom_valid M errors feature name split g)
               (fun errors =>
                  visitor_geom_valid M errors feature name split
                                     (geom_collection gs)));
        [exact Hg | exact IH].
Qed.

Lemma accumulates_check_feature_msgs name version split msgs :
  accumulates
    (fun errors => check_feature_msgs M errors name version split msgs).
Proof.
  induction msgs as [|m msgs IH]; cbn [check_feature_msgs].
  - apply accumulates_normal.
  - apply (accumulates_bind
             (fun errors => check_feature_msg M errors name version split m)
             (fun errors =>
                check_feature_msgs M errors name version split msgs));
      [|exact IH].
    unfold check_feature_msg.
    destruct (has_geom _ && has_geom_type _);
      [apply accumulates_visitor | apply accumulates_normal].
Qed.

Lemma accumulates_check_ds_features name split lat_lon
  (fs : list (feature_impl coord value)) :
  accumulates
    (fun errors => check_ds_features M errors name split lat_lon fs).
Proof.
  induction fs as [|f fs IH]; cbn [check_ds_features].
  - apply accumulates_normal.
  - apply (accumulates_bind
             (fun errors =>
                if lat_lon
                then visitor_geom_valid M errors f name split
                       (reproject_copy M (get_geometry f))
                else visitor_geom_valid M errors f name split
                       (get_geometry f))
             (fun errors =>
                check_ds_features M errors name split lat_lon fs));
      [|exact IH].
    destruct lat_lon; apply accumulates_visitor.
Qed.

Lemma accumulates_layer l x y z split lat_lon web_merc :
  accumulates
    (fun errors => layer_not_valid M l x y z errors split lat_lon web_merc).
Proof.
  unfold layer_not_valid. destruct (web_merc || lat_lon).
  - destruct (ds_features M l x y z);
      [apply accumulates_check_ds_features | apply accumulates_normal].
  - apply accumulates_check_feature_msgs.
Qed.

Lemma accumulates_layers buf x y z split lat_lon web_merc :
  accumulates
    (fun errors =>
       not_valid_layers M buf x y z errors split lat_lon web_merc).
Proof.
  induction buf as [|[l|tag] buf IH]; cbn [not_valid_layers].
  - apply accumulates_normal.
  - apply (accumulates_bind
             (fun errors =>
                layer_not_valid M l x y z errors split lat_lon web_merc)
             (fun errors =>
                not_valid_layers M buf x y z errors split lat_lon web_merc));
      [apply accumulates_layer | exact IH].
  - exact IH.
Qed.

Lemma not_valid_layers_app b1 b2 x y z errors split lat_lon web_merc :
  not_valid_layers M (b1 ++ b2) x y z errors split lat_lon web_merc
  = (mid <- not_valid_layers M b1 x y z errors split lat_lon web_merc ;;
     not_valid_layers M b2 x y z mid split lat_lon web_merc).
Proof.
  revert errors. induction b1 as [|[l|tag] b1 IH]; intros errors;
    cbn [app not_valid_layers].
  - reflexivity.
  - destruct (layer_not_valid M l x y z errors split lat_lon web_merc);
      cbn [bind]; [apply IH | reflexivity].
  - apply IH.
Qed.

(** X24: the checks only append.  Started on records already collected,
    the validity check does what it does started on none and puts its
    records behind them, and it throws in the same cases; so does the
    simplicity check, which always returns. *)
Theorem checks_only_append (t : merc_tile) (split lat_lon web_merc : bool)
  (errors : list not_valid_feature) (simple_errors : list not_simple_feature) :
  vector_tile_not_valid M t errors split lat_lon web_merc
  = (new <- vector_tile_not_valid M t [] split lat_lon web_merc ;;
     Normal (errors ++ new))
  /\ vector_tile_not_simple M t simple_errors
     = simple_errors ++ vector_tile_not_simple M t [].
Proof.
  split.
  - apply accumulates_layers.
  - unfold vector_tile_not_simple. rewrite !not_simple_layers_spec.
    reflexivity.
Qed.

(** X25: the report of concatenated data is the concatenation of the
    reports.  For a tile whose buffer is [b1 ++ b2], the simplicity check
    gives the entries for [b1] followed by those for [b2]; the validity
    check gives the records for [b1] followed by those for [b2], and
    throws when either part does. *)
Theorem reports_of_concatenated_data (t : merc_tile) (b1 b2 : tile_buffer)
  (split lat_lon web_merc : bool) :
  vector_tile_not_simple M (with_buffer t (b1 ++ b2)) []
  = vector_tile_not_simple M (with_buffer t b1) []
    ++ vector_tile_not_simple M (with_buffer t b2) []
  /\ vector_tile_not_valid M (with_buffer t (b1 ++ b2)) []
                           split lat_lon web_merc
     = (e1 <- vector_tile_not_valid M (with_buffer t b1) []
                                    split lat_lon web_merc ;;
        e2 <- vector_tile_not_valid M (with_buffer t b2) []
                                    split lat_lon web_merc ;;
        Normal (e1 ++ e2)).
Proof.
  unfold vector_tile_not_simple, vector_tile_not_valid, with_buffer.
  cbn [buffer_ x_ y_ z_]. split.
  - rewrite !not_simple_layers_spec, layers_app, flat_map_app. reflexivity.
  - rewrite not_valid_layers_app.
    destruct (not_valid_layers M b1 _ _ _ [] _ _ _) as [e1|e]; cbn [bind];
      [|reflexivity].
    apply accumulates_layers.
Qed.

End Accumulation.

(** ** A tile fresh from the constructor *)

Section FreshTile.

Context {coord value : Type}.
Variable R : Z -> Z.
Variable M : mapnik_api coord value.

(** X26: a tile built by the constructor from numbers holds no layer, and
    nothing modelled here can give it one: after any script of calls, both
    reports return the empty array, under every combination of flags. *)
Theorem fresh_tile_reports_nothing (P : Z -> Z) (info : list js_value)
  (t : merc_tile) (script : list invocation) :
  VectorTile_new P info = Normal t ->
  ~ is_external_call info ->
  (forall info',
     reportGeometrySimplicitySync M (run R M t script) info'
     = Normal (JsArray []))
  /\ (forall split lat_lon web_merc,
        vector_tile_not_valid M (run R M t script) [] split lat_lon web_merc
        = Normal [])
  /\ reportGeometryValiditySync M (run R M t script) []
     = Normal (JsArray []).
Proof.
  intros Hnew Hext.
  assert (Hbuf : buffer_ (run R M t script) = []).
  { destruct (VectorTile_new_built P info t Hnew)
      as [H | [_ [_ [_ [_ [Hb _]]]]]]; [contradiction|].
    clear Hnew. unfold run. revert t Hb.
    induction script as [|i script IH]; intros t Hb; cbn [fold_left];
      [exact Hb|].
    apply IH.
    destruct (invoke_tile R M t i) as [-> | [a [_ ->]]];
      [exact Hb | now rewrite assign_keeps_buffer]. }
  assert (Hv : forall split lat_lon web_merc,
             vector_tile_not_valid M (run R M t script) []
                                   split lat_lon web_merc = Normal []).
  { intros s l w. unfold vector_tile_not_valid. now rewrite Hbuf. }
  split; [|split].
  - intros info'.
    unfold reportGeometrySimplicitySync, vector_tile_not_simple.
    now rewrite Hbuf.
  - exact Hv.
  - unfold reportGeometryValiditySync, Length.
    cbn [List.length Z.of_nat]. change (1 <=? 0) with false. cbn [bind].
    now rewrite Hv.
Qed.

End FreshTile.

Lemma fresh_tile_reports_nothing_witness :
  reportGeometryValiditySync Demo.api
    (run (fun v => v) Demo.api (merc_tile_new 0 0 0 4096 128)
       [Call_addImageSync [JsNull; JsString "layer"];
        Call_compositeSync
          [JsArray [JsVectorTile
                      (Demo.tile_with 0 0 0 [T_LAYERS Demo.parcels])]];
        Write (Assign_bufferSize (JsNumber 0))])
    []
  = Normal (JsArray []).
Proof.
  apply (proj2 (proj2 (fresh_tile_reports_nothing (fun v => v) Demo.api
                         Demo.pow2_saturating
                         [JsNumber 0; JsNumber 0; JsNumber 0]
                         (merc_tile_new 0 0 0 4096 128) _
                         eq_refl
                         (fun H => match H with ex_intro _ _ E =>
                                     ltac:(discriminate E) end)))).
Defined.

(** ** The class as [Initialize] registers it *)

